(** * Speech-to-text upload service: audio normalisation and upload handlers

    A shallow embedding of the two server variants of the repository,
    [src/speechtxt.js] (uploads kept in memory) and [src/unnamed/part_000]
    (uploads kept on disk), and the properties of their audio pipeline.

    Conventions of the embedding.
    - A JavaScript exception is a value of [exn]; a function that may throw
      returns a [result].
    - Code that touches the disk, the storage bucket, the database or the
      speech client runs in the monad [M] over an explicit [World].
    - The npm packages (node-wav, wav-encoder, the Google clients, sequelize,
      ffmpeg) are not part of the repository: they are the fields of
      [Externals], and every theorem holds for all of them.
    - A finite number is the rational it denotes.  Arithmetic rounds to
      binary64 ([double]) and a store into a Float32Array rounds to
      binary32 ([fround]), both to nearest, ties to even.  [NaN] is kept,
      because reading a typed array out of range and adding the result
      yields it.  Infinities and the sign of zero are not modelled: the
      mean of two finite binary32 samples never overflows. *)

From Stdlib Require Import QArith Qround Qabs Qpower Lqa Ascii String.
From stdpp Require Import gmap strings list.

(** ** Exceptions and results *)

Inductive exn :=
  | TypeError (msg : string)
  | Error (msg : string).

Inductive result (A : Type) :=
  | Ok (a : A)
  | Throw (e : exn).
Arguments Ok {A} a.
Arguments Throw {A} e.

Definition result_bind {A B} (r : result A) (k : A -> result B) : result B :=
  match r with
  | Ok a => k a
  | Throw e => Throw e
  end.

Definition is_ok {A} (r : result A) : bool :=
  match r with Ok _ => true | Throw _ => false end.

(** ** Floating point *)

(** For [0 < q], the [l] with [2^l <= q < 2^(l+1)]. *)
Definition floor_log2 (q : Q) : Z :=
  let l := (Z.log2 (Qnum q) - Z.log2 (Zpos (Qden q)))%Z in
  if Qle_bool (Qpower 2 l) q then l else (l - 1)%Z.

(** The integer nearest to [s], the even one when two are as near. *)
Definition round_half_even (s : Q) : Z :=
  let f := Qfloor s in
  match Qcompare (s - inject_Z f) (1 # 2) with
  | Lt => f
  | Gt => (f + 1)%Z
  | Eq => if Z.even f then f else (f + 1)%Z
  end.

(** Rounding to the nearest number [m * 2^e] with [|m| < 2^prec] and
    [emin <= e], ties to even. *)
Definition round_to (prec emin : Z) (q : Q) : Q :=
  let q := Qred q in
  if Qeq_bool q 0 then 0%Q
  else
    let e := Z.max (floor_log2 (Qabs q) - (prec - 1)) emin in
    (inject_Z (round_half_even (q / Qpower 2 e)) * Qpower 2 e)%Q.

(** A JavaScript number (binary64). *)
Definition double (q : Q) : Q := round_to 53 (-1074) q.

(** An element of a Float32Array (binary32), [Math.fround]. *)
Definition fround (q : Q) : Q := round_to 24 (-149) q.

(** ** Samples and waveforms *)

Inductive sample :=
  | Num (q : Q)
  | NaN.

(** [a + b] on numbers. *)
Definition js_add (a b : sample) : sample :=
  match a, b with
  | Num x, Num y => Num (double (x + y))
  | _, _ => NaN
  end.

(** [a / 2]. *)
Definition js_half (a : sample) : sample :=
  match a with
  | Num x => Num (double (x / 2))
  | NaN => NaN
  end.

(** The value an element of a Float32Array takes when [a] is stored. *)
Definition js_fround (a : sample) : sample :=
  match a with
  | Num x => Num (fround x)
  | NaN => NaN
  end.

(** A finite binary32 number, or [NaN]. *)
Definition is_float32 (a : sample) : Prop :=
  match a with
  | Num x =>
      exists m e : Z,
        (x == inject_Z m * Qpower 2 e)%Q
        /\ (Z.abs m < 2 ^ 24)%Z /\ (-149 <= e <= 104)%Z
  | NaN => True
  end.

(** [ch[i]] used as a number: [undefined] out of range, which arithmetic
    turns into [NaN]. *)
Definition js_at (ch : list sample) (i : nat) : sample :=
  match ch !! i with
  | Some s => s
  | None => NaN
  end.

Definition sample_eq (a b : sample) : Prop :=
  match a, b with
  | Num x, Num y => (x == y)%Q
  | NaN, NaN => True
  | _, _ => False
  end.

Definition in_range (a : sample) : Prop :=
  match a with
  | Num x => (-1 <= x <= 1)%Q
  | NaN => False
  end.

Definition Buffer := list Byte.byte.

(** The object [wav.decode] returns and [wavEncoder.encode] takes. *)
Record AudioData := mkAudioData {
  sampleRate : N;
  channelData : list (list sample)
}.

(** [channelData[0].map((_, i) => (channelData[0][i] + channelData[1][i]) / 2)],
    where [channelData[0]] is a Float32Array, and so is the result. *)
Definition monoChannel (ch0 ch1 : list sample) : list sample :=
  imap (fun i _ => js_fround (js_half (js_add (js_at ch0 i) (js_at ch1 i)))) ch0.

(** ** The outside world *)

(** The body of a [client.recognize] call. *)
Record RecognizeRequest := mkRecognizeRequest {
  audio_content : string;
  encoding : string;
  sampleRateHertz : N;
  languageCode : string
}.

(** A row of the [Speechtotext] table (the columns the handlers set). *)
Record Row := mkRow {
  audioUrl : string;
  text : string;
  fileName : string;
  createdByEmail : string
}.

Record World := mkWorld {
  disk : gmap string Buffer;             (* local files, by path *)
  bucket : gmap string string;           (* objects of the storage bucket *)
  table : list Row;                      (* the Speechtotext table *)
  recognize_log : list RecognizeRequest; (* requests sent to the speech client *)
  console_log : list exn                 (* console.error *)
}.

Definition set_disk (f : gmap string Buffer -> gmap string Buffer) (w : World) : World :=
  mkWorld (f (disk w)) (bucket w) (table w) (recognize_log w) (console_log w).
Definition set_bucket (f : gmap string string -> gmap string string) (w : World) : World :=
  mkWorld (disk w) (f (bucket w)) (table w) (recognize_log w) (console_log w).
Definition set_table (f : list Row -> list Row) (w : World) : World :=
  mkWorld (disk w) (bucket w) (f (table w)) (recognize_log w) (console_log w).
Definition set_recognize_log (f : list RecognizeRequest -> list RecognizeRequest) (w : World) : World :=
  mkWorld (disk w) (bucket w) (table w) (f (recognize_log w)) (console_log w).
Definition set_console_log (f : list exn -> list exn) (w : World) : World :=
  mkWorld (disk w) (bucket w) (table w) (recognize_log w) (f (console_log w)).

(** What the repository imports and does not define.  A failure of a
    collaborator is an exception chosen by the environment. *)
Record Externals := mkExternals {
  (* node-wav, wav-encoder, Buffer *)
  wav_decode : Buffer -> result AudioData;
  wavEncoder_encode : AudioData -> result Buffer;
  toString_base64 : Buffer -> string;
  (* @google-cloud/speech: the transcripts of the alternatives of each result *)
  recognize : RecognizeRequest -> result (list (list string));
  (* @google-cloud/storage: [None] when the object is saved *)
  save_error : string -> string -> option exn;
  (* sequelize *)
  create_error : Row -> option exn;
  findAll_error : string -> option exn;
  (* fs, child_process, ffmpeg-static, path, process.env *)
  writeFileSync_error : string -> Buffer -> option exn;
  ffmpeg : string -> N -> Buffer -> result Buffer;
  path_parse_name : string -> string;
  dirname : string;
  GCP_BUCKET_NAME : string
}.

(** ** State and exceptions *)

Definition M (A : Type) : Type := World -> result A * World.

Definition ret {A} (a : A) : M A := fun w => (Ok a, w).

Definition throw {A} (e : exn) : M A := fun w => (Throw e, w).

Definition bind {A B} (m : M A) (k : A -> M B) : M B :=
  fun w =>
    match m w with
    | (Ok a, w') => k a w'
    | (Throw e, w') => (Throw e, w')
    end.

(** A pure computation that may throw. *)
Definition lift {A} (r : result A) : M A := fun w => (r, w).

(** [try { body } catch (error) { handler }] *)
Definition try_catch {A} (body : M A) (handler : exn -> M A) : M A :=
  fun w =>
    match body w with
    | (Ok a, w') => (Ok a, w')
    | (Throw e, w') => handler e w'
    end.

Declare Scope js_scope.
Delimit Scope js_scope with js.
Notation "'let*' x ':=' e 'in' k" := (bind e (fun x => k))
  (at level 10, x name, e at level 99, k at level 200) : js_scope.
Notation "e ';;' k" := (bind e (fun _ => k))
  (at level 100, k at level 200, right associativity) : js_scope.
Notation "'let?' x ':=' e 'in' k" := (result_bind e (fun x => k))
  (at level 10, x name, e at level 99, k at level 200) : js_scope.

(** [!x] for a text field of the request: absent or empty. *)
Definition falsy (x : option string) : bool :=
  match x with
  | None => true
  | Some s => if decide (s = EmptyString) then true else false
  end.

(** [path.join(dir, name)] for a plain file name. *)
Definition path_join (dir name : string) : string := dir +:+ "/" +:+ name.

(** [results.map(r => r.alternatives[0].transcript)] *)
Fixpoint first_transcripts (results : list (list string)) : result (list string) :=
  match results with
  | [] => Ok []
  | alternatives :: rest =>
      match alternatives with
      | [] => Throw (TypeError "Cannot read properties of undefined (reading 'transcript')")
      | t :: _ =>
          match first_transcripts rest with
          | Ok ts => Ok (t :: ts)
          | Throw e => Throw e
          end
      end
  end.

(** [parts.join('\n')] *)
Definition join_lines (parts : list string) : string :=
  String.concat (String "010"%char EmptyString) parts.

(** [`${x}`]: the text of a field, ["undefined"] when it is absent. *)
Definition js_string (x : option string) : string :=
  match x with
  | Some s => s
  | None => "undefined"
  end.

(** ** HTTP responses *)

Inductive Json :=
  | JError (error : string)                  (* { error } *)
  | JCreated (message : string) (data : Row) (* { success: true, message, data } *)
  | JFailure (error : string)                (* { success: false, error } *)
  | JData (data : list Row)                  (* { success: true, data } *)
  | JMessage (message : string).             (* { message } *)

Record Response := mkResponse {
  status : nat;
  json : Json
}.

(** ** What both servers share *)

Section Shared.
Context (E : Externals).
Local Open Scope js_scope.

(** [fs.writeFileSync(path, data)] *)
Definition fs_writeFileSync (path : string) (data : Buffer) : M unit :=
  fun w =>
    match writeFileSync_error E path data with
    | Some e => (Throw e, w)
    | None => (Ok tt, set_disk (insert path data) w)
    end.

(** [fs.readFileSync(path)] *)
Definition fs_readFileSync (path : string) : M Buffer :=
  fun w =>
    match disk w !! path with
    | Some data => (Ok data, w)
    | None => (Throw (Error "ENOENT: no such file or directory"), w)
    end.

(** [execSync(`${ffmpeg} -i ${input} -acodec ${acodec} -ar ${ar} ${output}`)]:
    the transcoder reads [input] and, when it succeeds, writes [output];
    a failed run is taken to leave the disk as it was. *)
Definition execSync_ffmpeg (input acodec : string) (ar : N) (output : string) : M unit :=
  fun w =>
    match disk w !! input with
    | None => (Throw (Error "Command failed: No such file or directory"), w)
    | Some data =>
        match ffmpeg E acodec ar data with
        | Ok out => (Ok tt, set_disk (insert output out) w)
        | Throw e => (Throw e, w)
        end
    end.

(** [client.recognize(request)]: the request leaves the process, then the
    service answers or fails. *)
Definition client_recognize (request : RecognizeRequest) : M (list (list string)) :=
  fun w => (recognize E request, set_recognize_log (fun l => l ++ [request]) w).

(** [bucket.file(name).save(content, ...)] *)
Definition file_save (name content : string) : M unit :=
  fun w =>
    match save_error E name content with
    | Some e => (Throw e, w)
    | None => (Ok tt, set_bucket (insert name content) w)
    end.

(** [Speechtotext.create(row)] *)
Definition Speechtotext_create (row : Row) : M Row :=
  fun w =>
    match create_error E row with
    | Some e => (Throw e, w)
    | None => (Ok row, set_table (fun t => t ++ [row]) w)
    end.

(** [Speechtotext.findAll({ where: { createdByEmail: email } })] *)
Definition Speechtotext_findAll (email : string) : M (list Row) :=
  fun w =>
    match findAll_error E email with
    | Some e => (Throw e, w)
    | None => (Ok (filter (fun r => createdByEmail r = email) (table w)), w)
    end.

(** [console.error(error)] *)
Definition console_error (error : exn) : M unit :=
  fun w => (Ok tt, set_console_log (fun l => l ++ [error]) w).

Definition saveTranscriptionToCloud (transcription filename : string) : M string :=
  let name := "transcriptions/" +:+ filename +:+ ".txt" in
  file_save name transcription;;
  ret ("https://storage.googleapis.com/" +:+ GCP_BUCKET_NAME E
         +:+ "/transcriptions/" +:+ filename +:+ ".txt").

(** [app.get("/speechtotext/:email", ...)] *)
Definition get_speechtotext (email : string) : M Response :=
  if falsy (Some email) then
    ret (mkResponse 400 (JError "Email parameter is required"))
  else
    try_catch
      (let* transcriptions := Speechtotext_findAll email in
       if (length transcriptions =? 0)%nat then
         ret (mkResponse 404 (JMessage "No transcriptions found for this email"))
       else
         ret (mkResponse 200 (JData transcriptions)))
      (fun error =>
         console_error error;;
         ret (mkResponse 500 (JFailure "Failed to fetch transcriptions"))).
End Shared.

(** ** [src/speechtxt.js]: the upload is held in memory *)

Module Speechtxt.

Record UploadedFile := mkFile {
  buffer : Buffer;
  mimetype : string
}.

(** [req.body.email], [req.body.title] (text fields of the form, absent or
    a string) and [req.file]. *)
Record Request := mkRequest {
  email : option string;
  title : option string;
  file : option UploadedFile
}.

Section Server.
Context (E : Externals).
Local Open Scope js_scope.

Definition getSampleRateFromWavBuffer (inputBuffer : Buffer) : result N :=
  let? decoded := wav_decode E inputBuffer in
  Ok (sampleRate decoded).

Definition convertAudioToWavBuffer (inputBuffer : Buffer) : M string :=
  try_catch
    (let tempWavFile := path_join (dirname E) "temp.wav" in
     fs_writeFileSync E tempWavFile inputBuffer;;
     let outputWavFile := path_join (dirname E) "output.wav" in
     execSync_ffmpeg E tempWavFile "pcm_s16le" 16000 outputWavFile;;
     ret outputWavFile)
    (fun error => throw (Error "Error saat konversi audio ke WAV.")).

Definition convertToMonoBuffer (inputBuffer : Buffer) : result Buffer :=
  let? decoded := wav_decode E inputBuffer in
  if (length (channelData decoded) =? 1)%nat then
    Ok inputBuffer
  else
    match channelData decoded with
    | ch0 :: ch1 :: _ =>
        let? encoded :=
          wavEncoder_encode E (mkAudioData (sampleRate decoded) [monoChannel ch0 ch1]) in
        Ok encoded
    | _ =>
        (* channelData[0] is undefined *)
        Throw (TypeError "Cannot read properties of undefined (reading 'map')")
    end.

Definition transcribeAudioBuffer (audioBuffer : Buffer) : M string :=
  let* sampleRate := lift (getSampleRateFromWavBuffer audioBuffer) in
  let audioBytes := toString_base64 E audioBuffer in
  let request := mkRecognizeRequest audioBytes "LINEAR16" sampleRate "id-ID" in
  let* results := client_recognize E request in
  let* transcripts := lift (first_transcripts results) in
  ret (join_lines transcripts).

(** [req.file.buffer] *)
Definition file_buffer (f : option UploadedFile) : result Buffer :=
  match f with
  | Some f => Ok (buffer f)
  | None => Throw (TypeError "Cannot read properties of undefined (reading 'buffer')")
  end.

(** [app.post("/speechtotext", upload.single('audio'), ...)] *)
Definition post_speechtotext (req : Request) : M Response :=
  try_catch
    (let email := email req in
     let title := title req in
     if falsy email || falsy title || bool_decide (file req = None) then
       ret (mkResponse 400 (JError "Email, title, and audio file are required"))
     else
       let* fileBuffer := lift (file_buffer (file req)) in
       let* monoBuffer := lift (convertToMonoBuffer fileBuffer) in
       let* transcription := transcribeAudioBuffer monoBuffer in
       let* transcriptionUrl :=
         saveTranscriptionToCloud E transcription (js_string title) in
       let* transcriptionData :=
         Speechtotext_create E
           (mkRow transcriptionUrl transcription (js_string title) (js_string email)) in
       ret (mkResponse 201 (JCreated "Transcription created successfully" transcriptionData)))
    (fun error =>
       console_error error;;
       ret (mkResponse 500 (JFailure "Failed to create transcription"))).
End Server.

End Speechtxt.

(** ** [src/unnamed/part_000]: the upload is stored under [uploads/] *)

Module Part000.

Record UploadedFile := mkFile {
  path : string;
  filename : string;
  mimetype : string
}.

(** [req.body.email], [req.body.title] and [req.file], as above. *)
Record Request := mkRequest {
  email : option string;
  title : option string;
  file : option UploadedFile
}.

Section Server.
Context (E : Externals).
Local Open Scope js_scope.

Definition convertAudioToWav (inputFile tempWavFile : string) : M string :=
  try_catch
    (execSync_ffmpeg E inputFile "pcm_s16le" 16000 tempWavFile;;
     ret tempWavFile)
    (fun error => throw (Error "Error saat konversi audio ke WAV.")).

Definition convertToMono (inputFile outputFile : string) : M N :=
  let* buffer := fs_readFileSync inputFile in
  let* decoded := lift (wav_decode E buffer) in
  if (length (channelData decoded) =? 1)%nat then
    fs_writeFileSync E outputFile buffer;;
    ret (sampleRate decoded)
  else
    match channelData decoded with
    | ch0 :: ch1 :: _ =>
        let* encoded :=
          lift (wavEncoder_encode E
                  (mkAudioData (sampleRate decoded) [monoChannel ch0 ch1])) in
        fs_writeFileSync E outputFile encoded;;
        ret (sampleRate decoded)
    | _ =>
        (* channelData[0] is undefined *)
        throw (TypeError "Cannot read properties of undefined (reading 'map')")
    end.

Definition transcribeAudio (audiofile : string) (sampleRate : N) : M string :=
  let* file := fs_readFileSync audiofile in
  let audioBytes := toString_base64 E file in
  let request := mkRecognizeRequest audioBytes "LINEAR16" sampleRate "id-ID" in
  let* results := client_recognize E request in
  let* transcripts := lift (first_transcripts results) in
  ret (join_lines transcripts).

(** [const file = req.file], whose fields are read below *)
Definition the_file (f : option UploadedFile) : result UploadedFile :=
  match f with
  | Some f => Ok f
  | None => Throw (TypeError "Cannot read properties of undefined (reading 'filename')")
  end.

(** [app.post("/speechtotext", upload.single('audio'), ...)] *)
Definition post_speechtotext (req : Request) : M Response :=
  try_catch
    (let email := email req in
     let title := title req in
     if falsy email || falsy title || bool_decide (file req = None) then
       ret (mkResponse 400 (JError "Email, title, and audio file are required"))
     else
       let* file := lift (the_file (file req)) in
       let tempWavFile :=
         path_join "uploads" (path_parse_name E (filename file) +:+ "_temp.wav") in
       let monoFile :=
         path_join "uploads" (path_parse_name E (filename file) +:+ "_mono.wav") in
       convertAudioToWav (path file) tempWavFile;;
       let* sampleRate := convertToMono tempWavFile monoFile in
       let* transcription := transcribeAudio monoFile sampleRate in
       let* transcriptionUrl :=
         saveTranscriptionToCloud E transcription (filename file) in
       let* transcriptionData :=
         Speechtotext_create E
           (mkRow transcriptionUrl transcription (filename file) (js_string email)) in
       ret (mkResponse 201 (JCreated "Transcription created successfully" transcriptionData)))
    (fun error =>
       console_error error;;
       ret (mkResponse 500 (JFailure "Failed to create transcription"))).
End Server.

End Part000.

(** ** A concrete environment

    A small instance of [Externals], used to run the servers on concrete
    requests: a decoder that knows four clips, a transcoder that returns its
    input, and collaborators that fail when told to. *)

Module Fixture.

Definition mono_clip : Buffer := [Byte.x01].
Definition stereo_clip : Buffer := [Byte.x02].
Definition surround_clip : Buffer := [Byte.x03].
Definition silent_clip : Buffer := [Byte.x04].

Definition mono_audio : AudioData :=
  mkAudioData 16000 [[Num (1 # 2); Num (-1 # 4)]].
Definition stereo_audio : AudioData :=
  mkAudioData 16000 [[Num 1; Num (-1)]; [Num (-1); Num 1]].
Definition surround_audio : AudioData :=
  mkAudioData 16000 [[Num 1; Num 1]; [Num 1; Num 1]; [Num (-1); Num (-1)]].
Definition silent_audio : AudioData :=
  mkAudioData 16000 [[Num 0; Num 0]].

Definition decode (b : Buffer) : result AudioData :=
  match b with
  | [Byte.x01] => Ok mono_audio
  | [Byte.x02] => Ok stereo_audio
  | [Byte.x03] => Ok surround_audio
  | [Byte.x04] => Ok silent_audio
  | _ => Throw (Error "Invalid WAV file")
  end.

(** Writes 16 kHz audio only, and every clip as the silent one. *)
Definition encode (a : AudioData) : result Buffer :=
  if decide (sampleRate a = 16000%N) then Ok silent_clip
  else Throw (Error "Unsupported sample rate").

Definition env (write_error : option exn) (transcoder : Buffer -> result Buffer)
    (speech : result (list (list string))) (bucket_error db_error : option exn) : Externals :=
  {| wav_decode := decode;
     wavEncoder_encode := encode;
     toString_base64 := fun _ => "AQ==";
     recognize := fun _ => speech;
     save_error := fun _ _ => bucket_error;
     create_error := fun _ => db_error;
     findAll_error := fun _ => None;
     writeFileSync_error := fun _ _ => write_error;
     ffmpeg := fun _ _ data => transcoder data;
     path_parse_name := fun name => name;
     dirname := "/app";
     GCP_BUCKET_NAME := "transcripts" |}.

(** Everything works. *)
Definition healthy : Externals :=
  env None Ok (Ok [["halo"]; ["dunia"]]) None None.

(** The disk refuses the write. *)
Definition disk_full : Externals :=
  env (Some (Error "ENOSPC: no space left on device")) Ok (Ok []) None None.

(** The transcoder does not recognise the input. *)
Definition unknown_codec : Externals :=
  env None (fun _ => Throw (Error "Invalid data found when processing input"))
    (Ok []) None None.

(** The database refuses the insert. *)
Definition db_down : Externals :=
  env None Ok (Ok [["halo"]]) None (Some (Error "SequelizeConnectionError")).

Definition empty_world : World := mkWorld ∅ ∅ [] [] [].

(** An upload for [src/speechtxt.js], and one whose title is missing. *)
Definition upload : Speechtxt.Request :=
  Speechtxt.mkRequest (Some "ani@example.com") (Some "rapat")
    (Some (Speechtxt.mkFile stereo_clip "audio/wav")).
Definition upload_without_title : Speechtxt.Request :=
  Speechtxt.mkRequest (Some "ani@example.com") None
    (Some (Speechtxt.mkFile stereo_clip "audio/wav")).

(** An upload for [src/unnamed/part_000], stored by the upload middleware. *)
Definition stored_upload : Part000.Request :=
  Part000.mkRequest (Some "ani@example.com") (Some "rapat")
    (Some (Part000.mkFile "uploads/3f9a" "3f9a" "audio/wav")).
Definition stored_upload_without_email : Part000.Request :=
  Part000.mkRequest None (Some "rapat")
    (Some (Part000.mkFile "uploads/3f9a" "3f9a" "audio/wav")).
Definition world_with_upload : World :=
  set_disk (insert "uploads/3f9a" stereo_clip) empty_world.

End Fixture.

(** ** Assumption on the codec pair

    What [wav.decode] reads back from a buffer written by
    [wavEncoder.encode] has the sample rate that was written. *)
Definition encode_keeps_sampleRate (E : Externals) : Prop :=
  forall (a : AudioData) (out : Buffer),
    wavEncoder_encode E a = Ok out ->
    exists a', wav_decode E out = Ok a' /\ sampleRate a' = sampleRate a.

(** * Properties *)

(** ** Rounding *)

Section Rounding.
Local Open Scope Q_scope.

Lemma pow2_pos (e : Z) : 0 < Qpower 2 e.
Proof. apply Qpower_0_lt. reflexivity. Qed.

Lemma pow2_plus (a b : Z) : Qpower 2 (a + b) == Qpower 2 a * Qpower 2 b.
Proof. apply Qpower_plus. discriminate. Qed.

Lemma pow2_Z (a : Z) : (0 <= a)%Z -> inject_Z (2 ^ a) == Qpower 2 a.
Proof. intros Ha. rewrite Zpower_Qpower by exact Ha. reflexivity. Qed.

Lemma pow2_le (a b : Z) : (a <= b)%Z -> Qpower 2 a <= Qpower 2 b.
Proof. intros H. apply Qpower_le_compat_l; [exact H | discriminate]. Qed.

Lemma pow2_le_inv (a b : Z) : Qpower 2 a <= Qpower 2 b -> (a <= b)%Z.
Proof. intros H. apply (Qpower_le_compat_l_inv 2); [exact H | reflexivity]. Qed.

Lemma pow2_lt_inv (a b : Z) : Qpower 2 a < Qpower 2 b -> (a < b)%Z.
Proof. intros H. apply (Qpower_lt_compat_l_inv 2); [exact H | reflexivity]. Qed.

Lemma pow2_succ (a : Z) : Qpower 2 (a + 1) == 2 * Qpower 2 a.
Proof. rewrite pow2_plus. change (Qpower 2 1) with 2. ring. Qed.

Lemma floor_log2_spec (q : Q) :
  0 < q ->
  Qpower 2 (floor_log2 q) <= q /\ q < Qpower 2 (floor_log2 q + 1).
Proof.
  intros Hq. unfold floor_log2.
  destruct q as [n d]. cbn [Qnum Qden].
  assert (Hn : (0 < n)%Z).
  { unfold Qlt in Hq. cbn in Hq. lia. }
  destruct (Z.log2_spec n Hn) as [Hn1 Hn2].
  destruct (Z.log2_spec (Zpos d) (Pos2Z.is_pos d)) as [Hd1 Hd2].
  pose proof (Z.log2_nonneg n) as Han.
  pose proof (Z.log2_nonneg (Zpos d)) as Hbn.
  set (a := Z.log2 n) in *. set (b := Z.log2 (Zpos d)) in *.
  assert (Hval : n # d == inject_Z n / inject_Z (Zpos d)) by apply Qmake_Qdiv.
  assert (Hdpos : 0 < inject_Z (Zpos d)) by reflexivity.
  assert (HA1 : Qpower 2 a <= inject_Z n).
  { rewrite <- pow2_Z by exact Han. rewrite <- Zle_Qle. exact Hn1. }
  assert (HA2 : inject_Z n < Qpower 2 (a + 1)).
  { rewrite <- pow2_Z by lia. rewrite <- Zlt_Qlt.
    replace (a + 1)%Z with (Z.succ a) by lia. exact Hn2. }
  assert (HB1 : Qpower 2 b <= inject_Z (Zpos d)).
  { rewrite <- pow2_Z by exact Hbn. rewrite <- Zle_Qle. exact Hd1. }
  assert (HB2 : inject_Z (Zpos d) < Qpower 2 (b + 1)).
  { rewrite <- pow2_Z by lia. rewrite <- Zlt_Qlt.
    replace (b + 1)%Z with (Z.succ b) by lia. exact Hd2. }
  assert (Hsplit : forall k, Qpower 2 (a - b + k) * Qpower 2 b == Qpower 2 (a + k)).
  { intros k. rewrite <- pow2_plus.
    replace (a - b + k + b)%Z with (a + k)%Z by lia. reflexivity. }
  pose proof (pow2_pos b) as Hpb.
  destruct (Qle_bool (Qpower 2 (a - b)) (n # d)) eqn:Htest.
  - apply Qle_bool_iff in Htest. split; [exact Htest|].
    rewrite Hval. apply Qlt_shift_div_r; [exact Hdpos|].
    pose proof (Hsplit 1%Z) as H1. pose proof (pow2_pos (a - b + 1)) as Hp.
    nra.
  - assert (Hlt : n # d < Qpower 2 (a - b)).
    { apply Qnot_le_lt. intros H. apply Qle_bool_iff in H. congruence. }
    replace (a - b - 1 + 1)%Z with (a - b)%Z by lia. split; [|exact Hlt].
    rewrite Hval. apply Qle_shift_div_l; [exact Hdpos|].
    pose proof (Hsplit (-1)%Z) as H1. pose proof (pow2_pos (a - b + -1)) as Hp.
    pose proof (pow2_succ b) as Hs. pose proof (pow2_succ (a + -1)) as Hs'.
    replace (a + -1 + 1)%Z with a in Hs' by lia.
    replace (a - b - 1)%Z with (a - b + -1)%Z by lia.
    nra.
Qed.

Lemma round_half_even_near (s : Q) :
  inject_Z (round_half_even s) - (1 # 2) <= s
  /\ s <= inject_Z (round_half_even s) + (1 # 2).
Proof.
  unfold round_half_even.
  pose proof (Qfloor_le s) as Hlo. pose proof (Qlt_floor s) as Hhi.
  rewrite inject_Z_plus in Hhi. change (inject_Z 1) with 1 in Hhi.
  destruct (Qcompare (s - inject_Z (Qfloor s)) (1 # 2)) eqn:Hc.
  - apply Qeq_alt in Hc.
    destruct (Z.even (Qfloor s)); [|rewrite inject_Z_plus; change (inject_Z 1) with 1];
      split; lra.
  - apply Qlt_alt in Hc. split; lra.
  - apply Qgt_alt in Hc. rewrite inject_Z_plus. change (inject_Z 1) with 1. split; lra.
Qed.

Lemma round_half_even_le (s : Q) (N : Z) :
  s <= inject_Z N -> (round_half_even s <= N)%Z.
Proof.
  intros Hs. destruct (round_half_even_near s) as [Hlo _].
  apply Z.lt_succ_r. rewrite Zlt_Qlt. unfold Z.succ.
  rewrite inject_Z_plus. change (inject_Z 1) with 1. lra.
Qed.

Lemma round_half_even_ge (s : Q) (N : Z) :
  inject_Z N <= s -> (N <= round_half_even s)%Z.
Proof.
  intros Hs. destruct (round_half_even_near s) as [_ Hhi].
  apply Z.lt_succ_r. rewrite Zlt_Qlt. unfold Z.succ.
  rewrite inject_Z_plus. change (inject_Z 1) with 1. lra.
Qed.

Lemma round_half_even_Z (s : Q) (k : Z) : s == inject_Z k -> round_half_even s = k.
Proof.
  intros Hs. apply Z.le_antisymm.
  - apply round_half_even_le. lra.
  - apply round_half_even_ge. lra.
Qed.

Lemma round_half_even_compat (s1 s2 : Q) :
  s1 == s2 -> round_half_even s1 = round_half_even s2.
Proof.
  intros H. unfold round_half_even.
  rewrite (Qfloor_comp _ _ H).
  assert (Hc : Qcompare (s1 - inject_Z (Qfloor s2)) (1 # 2)
               = Qcompare (s2 - inject_Z (Qfloor s2)) (1 # 2)).
  { apply Qcompare_comp; [rewrite H|]; reflexivity. }
  rewrite Hc. reflexivity.
Qed.

Lemma round_to_zero (prec emin : Z) (q : Q) : q == 0 -> round_to prec emin q == 0.
Proof.
  intros Hq. unfold round_to.
  assert (H : Qeq_bool (Qred q) 0 = true).
  { apply Qeq_bool_iff. rewrite Qred_correct. exact Hq. }
  rewrite H. reflexivity.
Qed.

Lemma round_to_compat (prec emin : Z) (q1 q2 : Q) :
  q1 == q2 -> round_to prec emin q1 = round_to prec emin q2.
Proof. intros H. unfold round_to. rewrite (Qred_complete _ _ H). reflexivity. Qed.

Lemma Qabs_pos_nonzero (q : Q) : ~ q == 0 -> 0 < Qabs q.
Proof.
  intros Hq. destruct (Q_dec q 0) as [[Hlt|Hgt]|Heq]; [| |contradiction].
  - rewrite Qabs_neg by lra. lra.
  - rewrite Qabs_pos by lra. lra.
Qed.

(** What [round_to] computes when [q] is not zero: an exponent [e], at
    least [emin] and no larger than the size of [q] allows, and the
    nearest multiple of [2^e]. *)
Lemma round_to_steps (prec emin : Z) (q : Q) :
  ~ q == 0 ->
  exists e : Z,
    (emin <= e)%Z
    /\ (forall k : Z, Qabs q <= Qpower 2 k -> (e <= Z.max (k - (prec - 1)) emin)%Z)
    /\ (forall k : Z, Qabs q < Qpower 2 k -> (e <= Z.max (k - prec) emin)%Z)
    /\ Qabs q < Qpower 2 (e + prec)
    /\ round_to prec emin q == inject_Z (round_half_even (q / Qpower 2 e)) * Qpower 2 e.
Proof.
  intros Hq. unfold round_to.
  assert (Hred : Qred q == q) by apply Qred_correct.
  assert (H : Qeq_bool (Qred q) 0 = false).
  { destruct (Qeq_bool (Qred q) 0) eqn:Hb; [|reflexivity].
    apply Qeq_bool_iff in Hb. rewrite Hred in Hb. contradiction. }
  rewrite H.
  assert (Habs : 0 < Qabs (Qred q)) by (rewrite Hred; apply Qabs_pos_nonzero; exact Hq).
  destruct (floor_log2_spec _ Habs) as [Hl Hu].
  rewrite Hred in Hl at 2. rewrite Hred in Hu at 1.
  set (l := floor_log2 (Qabs (Qred q))) in *.
  exists (Z.max (l - (prec - 1)) emin). split; [lia|]. split; [|split; [|split]].
  - intros k Hk. assert (l <= k)%Z by (apply pow2_le_inv; lra). lia.
  - intros k Hk. assert (l < k)%Z by (apply pow2_lt_inv; lra). lia.
  - assert (Qpower 2 (l + 1) <= Qpower 2 (Z.max (l - (prec - 1)) emin + prec))
      by (apply pow2_le; lia).
    lra.
  - rewrite (round_half_even_compat (Qred q / _) (q / Qpower 2 (Z.max (l - (prec - 1)) emin))).
    + reflexivity.
    + rewrite Hred. reflexivity.
Qed.

Lemma Qabs_mult_pow2 (m : Z) (e : Z) :
  Qabs (inject_Z m * Qpower 2 e) == inject_Z (Z.abs m) * Qpower 2 e.
Proof.
  rewrite Qabs_Qmult. rewrite (Qabs_pos (Qpower 2 e)) by (apply Qlt_le_weak, pow2_pos).
  reflexivity.
Qed.

(** A number of the format is left as it is. *)
Lemma round_to_fix (prec emin : Z) (q : Q) (m e0 : Z) :
  q == inject_Z m * Qpower 2 e0 ->
  (Z.abs m < 2 ^ prec)%Z -> (0 < prec)%Z -> (emin <= e0)%Z ->
  round_to prec emin q == q.
Proof.
  intros Hq Hm Hprec He0.
  destruct (Qeq_dec q 0) as [Hz|Hnz]; [rewrite round_to_zero by exact Hz; lra|].
  destruct (round_to_steps prec emin q Hnz) as (e & Hemin & _ & Hup & _ & ->).
  assert (Hsize : Qabs q < Qpower 2 (prec + e0)).
  { rewrite Hq, Qabs_mult_pow2, pow2_plus.
    apply Qmult_lt_compat_r; [apply pow2_pos|].
    rewrite <- pow2_Z by lia. rewrite <- Zlt_Qlt. exact Hm. }
  specialize (Hup _ Hsize). assert (He : (e <= e0)%Z) by lia.
  assert (Hs : q / Qpower 2 e == inject_Z (m * 2 ^ (e0 - e))).
  { rewrite inject_Z_mult, pow2_Z by lia. rewrite Hq.
    replace e0 with ((e0 - e) + e)%Z at 1 by lia. rewrite pow2_plus.
    field. pose proof (pow2_pos e). lra. }
  rewrite (round_half_even_Z _ _ Hs), <- Hs. field.
  pose proof (pow2_pos e). lra.
Qed.

(** Rounding does not cross a power of two of the format. *)
Lemma round_to_abs_le (prec emin : Z) (q : Q) (k : Z) :
  (0 < prec)%Z -> (emin <= k)%Z ->
  Qabs q <= Qpower 2 k -> Qabs (round_to prec emin q) <= Qpower 2 k.
Proof.
  intros Hprec Hk Hq.
  destruct (Qeq_dec q 0) as [Hz|Hnz].
  { rewrite round_to_zero by exact Hz. apply Qlt_le_weak, pow2_pos. }
  destruct (round_to_steps prec emin q Hnz) as (e & Hemin & Hup & _ & _ & ->).
  specialize (Hup _ Hq). assert (He : (e <= k)%Z) by lia.
  pose proof (pow2_pos e) as Hpe.
  assert (Hsplit : Qpower 2 k == inject_Z (2 ^ (k - e)) * Qpower 2 e).
  { rewrite pow2_Z by lia. rewrite <- pow2_plus.
    replace (k - e + e)%Z with k by lia. reflexivity. }
  apply Qabs_Qle_condition in Hq. rewrite Hsplit in Hq.
  assert (Hs : - inject_Z (2 ^ (k - e)) <= q / Qpower 2 e
               /\ q / Qpower 2 e <= inject_Z (2 ^ (k - e))).
  { split.
    - apply Qle_shift_div_l; [exact Hpe|]. lra.
    - apply Qle_shift_div_r; [exact Hpe|]. lra. }
  destruct Hs as [Hs1 Hs2].
  rewrite <- inject_Z_opp in Hs1.
  apply round_half_even_ge in Hs1. apply round_half_even_le in Hs2.
  rewrite Qabs_mult_pow2, Hsplit.
  apply Qmult_le_compat_r; [|lra].
  rewrite <- Zle_Qle. lia.
Qed.


(** The result is a number of the format. *)
Lemma round_to_in_format (prec emin : Z) (q : Q) :
  (0 < prec)%Z ->
  exists m e : Z,
    round_to prec emin q == inject_Z m * Qpower 2 e
    /\ (Z.abs m <= 2 ^ prec)%Z /\ (emin <= e)%Z.
Proof.
  intros Hprec.
  destruct (Qeq_dec q 0) as [Hz|Hnz].
  { exists 0%Z, emin. rewrite round_to_zero by exact Hz.
    split; [ring|]. split; [|lia]. apply Z.lt_le_incl, Z.pow_pos_nonneg; lia. }
  destruct (round_to_steps prec emin q Hnz) as (e & Hemin & _ & _ & Hsize & Hround).
  exists (round_half_even (q / Qpower 2 e)), e.
  split; [exact Hround|]. split; [|exact Hemin].
  pose proof (pow2_pos e) as Hpe.
  assert (Hsplit : Qpower 2 (e + prec) == inject_Z (2 ^ prec) * Qpower 2 e).
  { rewrite pow2_Z by lia. rewrite <- pow2_plus.
    replace (prec + e)%Z with (e + prec)%Z by lia. reflexivity. }
  apply Qlt_le_weak, Qabs_Qle_condition in Hsize. rewrite Hsplit in Hsize.
  assert (Hs1 : inject_Z (- 2 ^ prec) <= q / Qpower 2 e).
  { rewrite inject_Z_opp. apply Qle_shift_div_l; [exact Hpe|]. lra. }
  assert (Hs2 : q / Qpower 2 e <= inject_Z (2 ^ prec)).
  { apply Qle_shift_div_r; [exact Hpe|]. lra. }
  apply round_half_even_ge in Hs1. apply round_half_even_le in Hs2. lia.
Qed.

Global Instance round_to_proper (prec emin : Z) :
  Proper (Qeq ==> Qeq) (round_to prec emin).
Proof. intros q1 q2 H. rewrite (round_to_compat _ _ _ _ H). reflexivity. Qed.

(** Some binary32 and binary64 roundings: 1/3, a tie that goes to the even
    neighbour, a tie among subnormals, and 1/10 as a JavaScript number. *)
Example fround_third : fround (1 # 3) == 11184811 # 33554432.
Proof. reflexivity. Qed.

Example fround_tie : fround 16777217 == 16777216 /\ fround 16777219 == 16777220.
Proof. split; reflexivity. Qed.

Example fround_subnormal_tie :
  fround (Qpower 2 (-150)) == 0 /\ fround (3 * Qpower 2 (-150)) == Qpower 2 (-148).
Proof. split; vm_compute; reflexivity. Qed.

Example double_tenth : double (1 # 10) == 3602879701896397 # 36028797018963968.
Proof. reflexivity. Qed.

Lemma double_fix (q : Q) (m e : Z) :
  q == inject_Z m * Qpower 2 e -> (Z.abs m < 2 ^ 24)%Z -> (-150 <= e)%Z ->
  double q == q.
Proof.
  intros Hq Hm He. apply (round_to_fix 53 (-1074) q m e Hq); lia.
Qed.

Lemma fround_fix (q : Q) (m e : Z) :
  q == inject_Z m * Qpower 2 e -> (Z.abs m < 2 ^ 24)%Z -> (-149 <= e)%Z ->
  fround q == q.
Proof.
  intros Hq Hm He. apply (round_to_fix 24 (-149) q m e Hq); lia.
Qed.

Global Instance double_proper : Proper (Qeq ==> Qeq) double.
Proof. apply round_to_proper. Qed.

Global Instance fround_proper : Proper (Qeq ==> Qeq) fround.
Proof. apply round_to_proper. Qed.

(** The mean as the code computes it stays in [-1, 1]. *)
Lemma mean_in_range (x y : Q) :
  -1 <= x <= 1 -> -1 <= y <= 1 ->
  -1 <= fround (double (double (x + y) / 2)) <= 1.
Proof.
  intros Hx Hy.
  assert (H1 : Qabs (double (x + y)) <= Qpower 2 1).
  { apply round_to_abs_le; [lia | lia |].
    apply Qabs_Qle_condition. change (Qpower 2 1) with 2. lra. }
  apply Qabs_Qle_condition in H1. change (Qpower 2 1) with 2 in H1.
  assert (H2 : Qabs (double (double (x + y) / 2)) <= Qpower 2 0).
  { apply round_to_abs_le; [lia | lia |].
    apply Qabs_Qle_condition. change (Qpower 2 0) with 1. split.
    - apply Qle_shift_div_l; lra.
    - apply Qle_shift_div_r; lra. }
  assert (H3 : Qabs (fround (double (double (x + y) / 2))) <= Qpower 2 0).
  { apply round_to_abs_le; [lia | lia | exact H2]. }
  apply Qabs_Qle_condition in H3. change (Qpower 2 0) with 1 in H3. exact H3.
Qed.

(** It is the exact mean whenever that is a binary32 number. *)
Lemma mean_exact (x y : Q) (m e : Z) :
  (x + y) / 2 == inject_Z m * Qpower 2 e ->
  (Z.abs m < 2 ^ 24)%Z -> (-149 <= e)%Z ->
  fround (double (double (x + y) / 2)) == (x + y) / 2.
Proof.
  intros Hmean Hm He.
  assert (Hsum : x + y == inject_Z m * Qpower 2 (e + 1)).
  { assert (H : x + y == 2 * ((x + y) / 2)) by field.
    rewrite pow2_succ, H, Hmean. ring. }
  rewrite (double_fix (x + y) m (e + 1) Hsum Hm) by lia.
  rewrite (double_fix ((x + y) / 2) m e Hmean Hm) by lia.
  apply (fround_fix _ m e Hmean Hm He).
Qed.

End Rounding.

(** ** Sample arithmetic and the mixed channel *)


Lemma js_at_lookup (ch : list sample) (i : nat) (s : sample) :
  ch !! i = Some s -> js_at ch i = s.
Proof. unfold js_at. intros ->. reflexivity. Qed.

Lemma js_mean_in_range (x y : sample) :
  in_range x -> in_range y -> in_range (js_fround (js_half (js_add x y))).
Proof.
  destruct x as [x|], y as [y|]; simpl; try tauto.
  intros Hx Hy. apply mean_in_range; assumption.
Qed.

Lemma monoChannel_length (ch0 ch1 : list sample) :
  length (monoChannel ch0 ch1) = length ch0.
Proof. unfold monoChannel. apply length_imap. Qed.

Lemma monoChannel_lookup (ch0 ch1 : list sample) (i : nat) :
  monoChannel ch0 ch1 !! i
  = (fun _ => js_fround (js_half (js_add (js_at ch0 i) (js_at ch1 i)))) <$> ch0 !! i.
Proof. unfold monoChannel. apply list_lookup_imap. Qed.


(** ** The downmixer of [src/speechtxt.js] *)

Section Downmix.
Context (E : Externals).

Lemma result_bind_Ok {A} (r : result A) : result_bind r Ok = r.
Proof. destruct r; reflexivity. Qed.

Lemma convertToMonoBuffer_one (b : Buffer) (d : AudioData) (ch : list sample) :
  wav_decode E b = Ok d -> channelData d = [ch] ->
  Speechtxt.convertToMonoBuffer E b = Ok b.
Proof.
  intros Hd Hc. unfold Speechtxt.convertToMonoBuffer.
  rewrite Hd. simpl. rewrite Hc. reflexivity.
Qed.

Lemma convertToMonoBuffer_two (b : Buffer) (d : AudioData)
    (ch0 ch1 : list sample) (more : list (list sample)) :
  wav_decode E b = Ok d -> channelData d = ch0 :: ch1 :: more ->
  Speechtxt.convertToMonoBuffer E b
  = wavEncoder_encode E (mkAudioData (sampleRate d) [monoChannel ch0 ch1]).
Proof.
  intros Hd Hc. unfold Speechtxt.convertToMonoBuffer.
  rewrite Hd. simpl. rewrite Hc. simpl. apply result_bind_Ok.
Qed.

Lemma convertToMonoBuffer_none (b : Buffer) (d : AudioData) :
  wav_decode E b = Ok d -> channelData d = [] ->
  Speechtxt.convertToMonoBuffer E b
  = Throw (TypeError "Cannot read properties of undefined (reading 'map')").
Proof.
  intros Hd Hc. unfold Speechtxt.convertToMonoBuffer.
  rewrite Hd. simpl. rewrite Hc. reflexivity.
Qed.
End Downmix.




(** ** The downmixer of [src/unnamed/part_000] *)

Section DownmixFiles.
Context (E : Externals).

Lemma convertToMono_one (inputFile outputFile : string) (w : World)
    (b : Buffer) (d : AudioData) (ch : list sample) :
  disk w !! inputFile = Some b ->
  wav_decode E b = Ok d -> channelData d = [ch] ->
  Part000.convertToMono E inputFile outputFile w
  = match writeFileSync_error E outputFile b with
    | Some e => (Throw e, w)
    | None => (Ok (sampleRate d), set_disk (insert outputFile b) w)
    end.
Proof.
  intros Hf Hd Hc.
  unfold Part000.convertToMono, bind, fs_readFileSync, lift.
  rewrite Hf, Hd, Hc. simpl. unfold fs_writeFileSync.
  destruct (writeFileSync_error E outputFile b); reflexivity.
Qed.

Lemma convertToMono_two (inputFile outputFile : string) (w : World)
    (b : Buffer) (d : AudioData) (ch0 ch1 : list sample) (more : list (list sample)) :
  disk w !! inputFile = Some b ->
  wav_decode E b = Ok d -> channelData d = ch0 :: ch1 :: more ->
  Part000.convertToMono E inputFile outputFile w
  = match wavEncoder_encode E (mkAudioData (sampleRate d) [monoChannel ch0 ch1]) with
    | Throw e => (Throw e, w)
    | Ok encoded =>
        match writeFileSync_error E outputFile encoded with
        | Some e => (Throw e, w)
        | None => (Ok (sampleRate d), set_disk (insert outputFile encoded) w)
        end
    end.
Proof.
  intros Hf Hd Hc.
  unfold Part000.convertToMono, bind, fs_readFileSync, lift.
  rewrite Hf, Hd, Hc. simpl.
  destruct (wavEncoder_encode E _) as [encoded|e]; [|reflexivity].
  unfold fs_writeFileSync.
  destruct (writeFileSync_error E outputFile encoded); reflexivity.
Qed.

Lemma convertToMono_none (inputFile outputFile : string) (w : World)
    (b : Buffer) (d : AudioData) :
  disk w !! inputFile = Some b ->
  wav_decode E b = Ok d -> channelData d = [] ->
  Part000.convertToMono E inputFile outputFile w
  = (Throw (TypeError "Cannot read properties of undefined (reading 'map')"), w).
Proof.
  intros Hf Hd Hc.
  unfold Part000.convertToMono, bind, fs_readFileSync, lift.
  rewrite Hf, Hd, Hc. reflexivity.
Qed.
End DownmixFiles.

(** C3. A buffer with exactly one channel comes back from the downmixer as
    it went in: [convertToMonoBuffer] returns the very bytes it was given,
    and [convertToMono] writes the bytes it read to the output file. *)
Theorem downmix_mono_identity (E : Externals) (b : Buffer) (d : AudioData)
    (ch : list sample) :
  wav_decode E b = Ok d ->
  channelData d = [ch] ->
  Speechtxt.convertToMonoBuffer E b = Ok b
  /\ (forall (inputFile outputFile : string) (w : World),
        disk w !! inputFile = Some b ->
        writeFileSync_error E outputFile b = None ->
        Part000.convertToMono E inputFile outputFile w
        = (Ok (sampleRate d), set_disk (insert outputFile b) w)).
Proof.
  intros Hd Hc. split.
  - apply (convertToMonoBuffer_one E b d ch); assumption.
  - intros inputFile outputFile w Hf Hw.
    rewrite (convertToMono_one E inputFile outputFile w b d ch Hf Hd Hc), Hw.
    reflexivity.
Qed.

Lemma downmix_mono_identity_witness :
  Speechtxt.convertToMonoBuffer Fixture.healthy Fixture.mono_clip = Ok Fixture.mono_clip.
Proof.
  exact (proj1 (downmix_mono_identity Fixture.healthy Fixture.mono_clip
                  Fixture.mono_audio _ eq_refl eq_refl)).
Defined.

(** C7. On a one-channel buffer, running the downmixer on its own output
    gives what one run gives. *)
Theorem convertToMonoBuffer_idempotent_on_mono (E : Externals) (b : Buffer)
    (d : AudioData) (ch : list sample) :
  wav_decode E b = Ok d ->
  channelData d = [ch] ->
  result_bind (Speechtxt.convertToMonoBuffer E b) (Speechtxt.convertToMonoBuffer E)
  = Speechtxt.convertToMonoBuffer E b.
Proof.
  intros Hd Hc.
  rewrite (convertToMonoBuffer_one E b d ch Hd Hc). simpl.
  apply (convertToMonoBuffer_one E b d ch); assumption.
Qed.

Lemma convertToMonoBuffer_idempotent_on_mono_witness :
  result_bind (Speechtxt.convertToMonoBuffer Fixture.healthy Fixture.mono_clip)
    (Speechtxt.convertToMonoBuffer Fixture.healthy)
  = Speechtxt.convertToMonoBuffer Fixture.healthy Fixture.mono_clip.
Proof.
  exact (convertToMonoBuffer_idempotent_on_mono Fixture.healthy Fixture.mono_clip
           Fixture.mono_audio _ eq_refl eq_refl).
Defined.

(** C8. When every sample of both channels lies in [-1, 1], so does every
    sample of the mixed channel: the mean needs no clamping. *)
Theorem monoChannel_in_range (chL chR : list sample) :
  length chL = length chR ->
  Forall in_range chL ->
  Forall in_range chR ->
  Forall in_range (monoChannel chL chR).
Proof.
  intros Hlen HL HR. apply Forall_lookup. intros i s Hs.
  rewrite monoChannel_lookup in Hs.
  destruct (chL !! i) as [x|] eqn:Hx; [|discriminate].
  injection Hs as <-.
  assert (is_Some (chR !! i)) as [y Hy].
  { apply lookup_lt_is_Some. rewrite <- Hlen. apply lookup_lt_is_Some. eauto. }
  rewrite (js_at_lookup _ _ _ Hx), (js_at_lookup _ _ _ Hy).
  apply js_mean_in_range.
  - exact (proj1 (Forall_lookup _ _) HL i x Hx).
  - exact (proj1 (Forall_lookup _ _) HR i y Hy).
Qed.

Lemma monoChannel_in_range_witness :
  Forall in_range (monoChannel [Num 1; Num (-1 # 3)] [Num 1; Num (1 # 2)]).
Proof.
  apply monoChannel_in_range.
  - reflexivity.
  - repeat constructor; simpl; lra.
  - repeat constructor; simpl; lra.
Defined.

(** C2 (as the code has it). With three or more channels the downmixer
    does not fail: it mixes channels 0 and 1 and ignores the others, in both
    servers.  With no channel at all it throws a TypeError.  The code has
    no error for the channel count. *)
Theorem downmix_other_channel_counts (E : Externals) (b : Buffer) (d : AudioData) :
  wav_decode E b = Ok d ->
  length (channelData d) <> 1 ->
  length (channelData d) <> 2 ->
  (channelData d = []
   /\ Speechtxt.convertToMonoBuffer E b
      = Throw (TypeError "Cannot read properties of undefined (reading 'map')")
   /\ forall (inputFile outputFile : string) (w : World),
        disk w !! inputFile = Some b ->
        Part000.convertToMono E inputFile outputFile w
        = (Throw (TypeError "Cannot read properties of undefined (reading 'map')"), w))
  \/ (exists (ch0 ch1 : list sample) (more : list (list sample)),
        channelData d = ch0 :: ch1 :: more
        /\ more <> []
        /\ Speechtxt.convertToMonoBuffer E b
           = wavEncoder_encode E (mkAudioData (sampleRate d) [monoChannel ch0 ch1])
        /\ forall (inputFile outputFile : string) (w : World) (encoded : Buffer),
             disk w !! inputFile = Some b ->
             wavEncoder_encode E (mkAudioData (sampleRate d) [monoChannel ch0 ch1])
             = Ok encoded ->
             writeFileSync_error E outputFile encoded = None ->
             Part000.convertToMono E inputFile outputFile w
             = (Ok (sampleRate d), set_disk (insert outputFile encoded) w)).
Proof.
  intros Hd H1 H2.
  destruct (channelData d) as [|ch0 [|ch1 more]] eqn:Hc.
  - left. split; [reflexivity|]. split.
    + apply (convertToMonoBuffer_none E b d); assumption.
    + intros inputFile outputFile w Hf.
      apply (convertToMono_none E inputFile outputFile w b d); assumption.
  - exfalso. apply H1. reflexivity.
  - right. exists ch0, ch1, more. split; [reflexivity|]. split.
    { intros ->. apply H2. reflexivity. }
    split.
    + apply (convertToMonoBuffer_two E b d ch0 ch1 more); assumption.
    + intros inputFile outputFile w encoded Hf He Hw.
      rewrite (convertToMono_two E inputFile outputFile w b d ch0 ch1 more Hf Hd Hc).
      rewrite He, Hw. reflexivity.
Qed.

Lemma downmix_other_channel_counts_witness :
  Speechtxt.convertToMonoBuffer Fixture.healthy Fixture.surround_clip
  = Ok Fixture.silent_clip.
Proof.
  destruct (downmix_other_channel_counts Fixture.healthy Fixture.surround_clip
              Fixture.surround_audio eq_refl)
    as [(Hnone & _) | (ch0 & ch1 & more & Hc & _ & Hrun & _)].
  - simpl. lia.
  - simpl. lia.
  - discriminate Hnone.
  - rewrite Hrun. injection Hc as <- <- <-. reflexivity.
Defined.

(** C2 (as stated) fails: a clip with three channels is downmixed without
    any error; the encoder receives the mean of the first two channels. *)
Lemma downmix_accepts_three_channels :
  exists d : AudioData,
    wav_decode Fixture.healthy Fixture.surround_clip = Ok d
    /\ length (channelData d) = 3
    /\ Speechtxt.convertToMonoBuffer Fixture.healthy Fixture.surround_clip
       = wavEncoder_encode Fixture.healthy
           (mkAudioData 16000 [[Num ((1 + 1) / 2); Num ((1 + 1) / 2)]])
    /\ is_ok (Speechtxt.convertToMonoBuffer Fixture.healthy Fixture.surround_clip) = true
    /\ exists n w,
         Part000.convertToMono Fixture.healthy "in.wav" "out.wav"
           (set_disk (insert "in.wav" Fixture.surround_clip) Fixture.empty_world)
         = (Ok n, w).
Proof.
  exists Fixture.surround_audio.
  split; [reflexivity|]. split; [reflexivity|]. split; [reflexivity|].
  split; [reflexivity|].
  eexists _, _. vm_compute. reflexivity.
Qed.

(** C6. For a buffer of one or two channels, what the downmixer returns
    is its input or an encoding at the input's sample rate, so the buffer
    it returns has the sample rate of its input; [convertToMono] returns
    that rate and writes a file that has it. *)
Theorem downmix_keeps_sampleRate (E : Externals) (b : Buffer) (d : AudioData) :
  wav_decode E b = Ok d ->
  length (channelData d) = 1 \/ length (channelData d) = 2 ->
  (forall out : Buffer,
      Speechtxt.convertToMonoBuffer E b = Ok out ->
      (out = b
       \/ exists mono, wavEncoder_encode E (mkAudioData (sampleRate d) [mono]) = Ok out)
      /\ (encode_keeps_sampleRate E ->
          Speechtxt.getSampleRateFromWavBuffer E out = Ok (sampleRate d)))
  /\ (forall (inputFile outputFile : string) (w w' : World) (n : N),
        disk w !! inputFile = Some b ->
        Part000.convertToMono E inputFile outputFile w = (Ok n, w') ->
        n = sampleRate d
        /\ exists out : Buffer,
             disk w' !! outputFile = Some out
             /\ (out = b
                 \/ exists mono,
                      wavEncoder_encode E (mkAudioData (sampleRate d) [mono]) = Ok out)
             /\ (encode_keeps_sampleRate E ->
                 Speechtxt.getSampleRateFromWavBuffer E out = Ok (sampleRate d))).
Proof.
  intros Hd Hn.
  assert (Hsame : Speechtxt.getSampleRateFromWavBuffer E b = Ok (sampleRate d)).
  { unfold Speechtxt.getSampleRateFromWavBuffer. rewrite Hd. reflexivity. }
  assert (Hback : forall a out,
             encode_keeps_sampleRate E ->
             wavEncoder_encode E a = Ok out ->
             Speechtxt.getSampleRateFromWavBuffer E out = Ok (sampleRate a)).
  { intros a out Hcodec He. destruct (Hcodec a out He) as (a' & Ha' & Hrate).
    unfold Speechtxt.getSampleRateFromWavBuffer. rewrite Ha'. simpl.
    rewrite Hrate. reflexivity. }
  destruct (channelData d) as [|ch0 [|ch1 [|ch2 more]]] eqn:Hc;
    simpl in Hn; try (destruct Hn; discriminate).
  - (* one channel *)
    split.
    + intros out Hrun.
      rewrite (convertToMonoBuffer_one E b d ch0 Hd Hc) in Hrun.
      injection Hrun as <-. split; [left; reflexivity | intros _; exact Hsame].
    + intros inputFile outputFile w w' n Hf Hrun.
      rewrite (convertToMono_one E inputFile outputFile w b d ch0 Hf Hd Hc) in Hrun.
      destruct (writeFileSync_error E outputFile b); [discriminate|].
      injection Hrun as <- <-. split; [reflexivity|].
      exists b. split; [simpl; apply lookup_insert_eq|].
      split; [left; reflexivity | intros _; exact Hsame].
  - (* two channels *)
    split.
    + intros out Hrun.
      rewrite (convertToMonoBuffer_two E b d ch0 ch1 [] Hd Hc) in Hrun.
      split; [right; eexists; exact Hrun|].
      intros Hcodec. exact (Hback _ _ Hcodec Hrun).
    + intros inputFile outputFile w w' n Hf Hrun.
      rewrite (convertToMono_two E inputFile outputFile w b d ch0 ch1 [] Hf Hd Hc) in Hrun.
      destruct (wavEncoder_encode E _) as [encoded|e] eqn:He; [|discriminate].
      destruct (writeFileSync_error E outputFile encoded); [discriminate|].
      injection Hrun as <- <-. split; [reflexivity|].
      exists encoded. split; [simpl; apply lookup_insert_eq|].
      split; [right; eexists; exact He|].
      intros Hcodec. exact (Hback _ _ Hcodec He).
Qed.

Lemma fixture_encode_keeps_sampleRate : encode_keeps_sampleRate Fixture.healthy.
Proof.
  intros a out. simpl. unfold Fixture.encode.
  destruct (decide (sampleRate a = 16000%N)) as [Hr|Hr]; [|discriminate].
  intros [= <-]. exists Fixture.silent_audio. split; [reflexivity|].
  rewrite Hr. reflexivity.
Qed.

Lemma downmix_keeps_sampleRate_witness :
  Speechtxt.getSampleRateFromWavBuffer Fixture.healthy Fixture.silent_clip = Ok 16000%N.
Proof.
  apply (proj1 (downmix_keeps_sampleRate Fixture.healthy Fixture.stereo_clip
                  Fixture.stereo_audio eq_refl (or_intror eq_refl))
           Fixture.silent_clip eq_refl).
  exact fixture_encode_keeps_sampleRate.
Defined.

(** ** The format normaliser *)

Section Normalizer.
Context (E : Externals).

Lemma temp_is_not_output :
  path_join (dirname E) "temp.wav" <> path_join (dirname E) "output.wav".
Proof.
  unfold path_join. intros H.
  apply (inj (String.append (dirname E))) in H. discriminate H.
Qed.

(** Every outcome of [convertAudioToWavBuffer], by what the disk and the
    transcoder do. *)
Lemma convertAudioToWavBuffer_cases (b : Buffer) (w : World) :
  let tempWavFile := path_join (dirname E) "temp.wav" in
  let outputWavFile := path_join (dirname E) "output.wav" in
  let generic := Error "Error saat konversi audio ke WAV." in
  Speechtxt.convertAudioToWavBuffer E b w
  = match writeFileSync_error E tempWavFile b with
    | Some _ => (Throw generic, w)
    | None =>
        match ffmpeg E "pcm_s16le" 16000 b with
        | Throw _ => (Throw generic, set_disk (insert tempWavFile b) w)
        | Ok out =>
            (Ok outputWavFile,
             set_disk (insert outputWavFile out) (set_disk (insert tempWavFile b) w))
        end
    end.
Proof.
  intros tempWavFile outputWavFile generic.
  unfold Speechtxt.convertAudioToWavBuffer, try_catch, bind, fs_writeFileSync,
    execSync_ffmpeg, ret, throw.
  fold tempWavFile outputWavFile generic.
  destruct (writeFileSync_error E tempWavFile b); [reflexivity|].
  simpl. rewrite lookup_insert_eq.
  destruct (ffmpeg E "pcm_s16le" 16000 b); reflexivity.
Qed.

(** Every outcome of [convertAudioToWav]. *)
Lemma convertAudioToWav_cases (inputFile tempWavFile : string) (w : World) :
  let generic := Error "Error saat konversi audio ke WAV." in
  Part000.convertAudioToWav E inputFile tempWavFile w
  = match disk w !! inputFile with
    | None => (Throw generic, w)
    | Some data =>
        match ffmpeg E "pcm_s16le" 16000 data with
        | Throw _ => (Throw generic, w)
        | Ok out => (Ok tempWavFile, set_disk (insert tempWavFile out) w)
        end
    end.
Proof.
  intros generic.
  unfold Part000.convertAudioToWav, try_catch, bind, execSync_ffmpeg, ret, throw.
  destruct (disk w !! inputFile) as [data|]; [|reflexivity].
  destruct (ffmpeg E "pcm_s16le" 16000 data); reflexivity.
Qed.
End Normalizer.

(** C5 (as the code has it). The normaliser either returns the path of a
    file holding what the transcoder produced for [pcm_s16le] at 16000 Hz,
    or throws one and the same error, whatever went wrong. *)
Theorem normalizer_outcomes (E : Externals) :
  (forall (b : Buffer) (w : World),
      match Speechtxt.convertAudioToWavBuffer E b w with
      | (Ok p, w') =>
          p = path_join (dirname E) "output.wav"
          /\ exists out, ffmpeg E "pcm_s16le" 16000 b = Ok out /\ disk w' !! p = Some out
      | (Throw e, _) => e = Error "Error saat konversi audio ke WAV."
      end)
  /\ (forall (inputFile tempWavFile : string) (w : World),
        match Part000.convertAudioToWav E inputFile tempWavFile w with
        | (Ok p, w') =>
            p = tempWavFile
            /\ exists data out,
                 disk w !! inputFile = Some data
                 /\ ffmpeg E "pcm_s16le" 16000 data = Ok out
                 /\ disk w' !! p = Some out
        | (Throw e, _) => e = Error "Error saat konversi audio ke WAV."
        end).
Proof.
  split.
  - intros b w. rewrite convertAudioToWavBuffer_cases.
    destruct (writeFileSync_error E _ b); [reflexivity|].
    destruct (ffmpeg E "pcm_s16le" 16000 b) as [out|e]; [|reflexivity].
    split; [reflexivity|]. exists out. split; [reflexivity|].
    simpl. apply lookup_insert_eq.
  - intros inputFile tempWavFile w. rewrite convertAudioToWav_cases.
    destruct (disk w !! inputFile) as [data|] eqn:Hf; [|reflexivity].
    destruct (ffmpeg E "pcm_s16le" 16000 data) as [out|e] eqn:Ht; [|reflexivity].
    split; [reflexivity|]. exists data, out.
    split; [reflexivity|]. split; [assumption|].
    simpl. apply lookup_insert_eq.
Qed.

(** C5 (as stated) fails: a disk that refuses the write and a transcoder
    that rejects the codec make the normaliser throw the same error. *)
Lemma normalizer_one_error_for_all_causes :
  writeFileSync_error Fixture.disk_full "/app/temp.wav" [Byte.x00; Byte.xff]
  = Some (Error "ENOSPC: no space left on device")
  /\ ffmpeg Fixture.unknown_codec "pcm_s16le" 16000 [Byte.x00; Byte.xff]
     = Throw (Error "Invalid data found when processing input")
  /\ fst (Speechtxt.convertAudioToWavBuffer Fixture.disk_full
            [Byte.x00; Byte.xff] Fixture.empty_world)
     = Throw (Error "Error saat konversi audio ke WAV.")
  /\ fst (Speechtxt.convertAudioToWavBuffer Fixture.unknown_codec
            [Byte.x00; Byte.xff] Fixture.empty_world)
     = Throw (Error "Error saat konversi audio ke WAV.").
Proof.
  split; [reflexivity|]. split; [reflexivity|].
  split; rewrite convertAudioToWavBuffer_cases; reflexivity.
Qed.

(** C9 (as the code has it). The normaliser removes nothing.  After
    [convertAudioToWavBuffer], returned or thrown, [temp.wav] holds the
    input bytes whenever writing it went through; [convertAudioToWav]
    leaves every file but its output as it was. *)
Theorem normalizer_keeps_files (E : Externals) (b : Buffer) (w : World) :
  writeFileSync_error E (path_join (dirname E) "temp.wav") b = None ->
  disk (snd (Speechtxt.convertAudioToWavBuffer E b w)) !! path_join (dirname E) "temp.wav"
  = Some b
  /\ (forall (inputFile tempWavFile p : string) (w0 : World),
        p <> tempWavFile ->
        disk (snd (Part000.convertAudioToWav E inputFile tempWavFile w0)) !! p
        = disk w0 !! p).
Proof.
  intros Hw. split.
  - rewrite convertAudioToWavBuffer_cases, Hw.
    destruct (ffmpeg E "pcm_s16le" 16000 b) as [out|e]; simpl.
    + rewrite lookup_insert_ne by (apply not_eq_sym, temp_is_not_output).
      apply lookup_insert_eq.
    + apply lookup_insert_eq.
  - intros inputFile tempWavFile p w0 Hp. rewrite convertAudioToWav_cases.
    destruct (disk w0 !! inputFile) as [data|]; [|reflexivity].
    destruct (ffmpeg E "pcm_s16le" 16000 data) as [out|e]; [|reflexivity].
    simpl. apply lookup_insert_ne. apply not_eq_sym. exact Hp.
Qed.

Lemma normalizer_keeps_files_witness :
  disk (snd (Speechtxt.convertAudioToWavBuffer Fixture.healthy
               [Byte.x00; Byte.xff] Fixture.empty_world)) !! "/app/temp.wav"
  = Some [Byte.x00; Byte.xff].
Proof.
  exact (proj1 (normalizer_keeps_files Fixture.healthy [Byte.x00; Byte.xff]
                  Fixture.empty_world eq_refl)).
Defined.

(** C9 (as stated) fails: the transcoder rejects the input, the normaliser
    throws, and the temporary file it wrote is still on the disk. *)
Lemma normalizer_leaves_temp_file :
  disk Fixture.empty_world !! "/app/temp.wav" = None
  /\ fst (Speechtxt.convertAudioToWavBuffer Fixture.unknown_codec
            [Byte.x00; Byte.xff] Fixture.empty_world)
     = Throw (Error "Error saat konversi audio ke WAV.")
  /\ disk (snd (Speechtxt.convertAudioToWavBuffer Fixture.unknown_codec
                  [Byte.x00; Byte.xff] Fixture.empty_world)) !! "/app/temp.wav"
     = Some [Byte.x00; Byte.xff].
Proof.
  split; [reflexivity|].
  rewrite convertAudioToWavBuffer_cases. simpl.
  split; [reflexivity|]. apply lookup_insert_eq.
Qed.

(** ** The upload handlers *)

Ltac run_monad :=
  unfold try_catch, bind, lift, ret, throw, fs_writeFileSync, fs_readFileSync,
    execSync_ffmpeg, client_recognize, file_save, Speechtotext_create,
    Speechtotext_findAll, console_error in *.

(** Splits on a [match] whose scrutinee has no [match] inside. *)
Ltac case_step :=
  match goal with
  | |- context [match ?x with _ => _ end] =>
      lazymatch x with
      | context [match _ with _ => _ end] => fail
      | _ => destruct x eqn:?; simpl
      end
  end.

Ltac frame_cases :=
  run_monad; repeat case_step; intros; simplify_eq; simpl;
  repeat split; first [reflexivity | discriminate].

Section Frames.
Context (E : Externals).

Lemma get_speechtotext_table (email : string) (w1 w2 : World) :
  table w1 = table w2 ->
  fst (get_speechtotext E email w1) = fst (get_speechtotext E email w2).
Proof.
  intros Ht. unfold get_speechtotext.
  destruct (falsy (Some email)); [reflexivity|].
  run_monad. rewrite Ht.
  destruct (findAll_error E email); [reflexivity|].
  destruct (length _ =? 0)%nat; reflexivity.
Qed.

Lemma saveTranscriptionToCloud_frame (transcription filename : string)
    (w w' : World) (r : result string) :
  saveTranscriptionToCloud E transcription filename w = (r, w') ->
  table w' = table w /\ recognize_log w' = recognize_log w
  /\ (is_ok r = false -> bucket w' = bucket w).
Proof. unfold saveTranscriptionToCloud. frame_cases. Qed.

Lemma Speechtotext_create_frame (row : Row) (w w' : World) (r : result Row) :
  Speechtotext_create E row w = (r, w') ->
  bucket w' = bucket w /\ recognize_log w' = recognize_log w
  /\ (is_ok r = false -> table w' = table w).
Proof. frame_cases. Qed.

Lemma transcribeAudioBuffer_frame (audioBuffer : Buffer) (w w' : World)
    (r : result string) :
  Speechtxt.transcribeAudioBuffer E audioBuffer w = (r, w') ->
  table w' = table w /\ bucket w' = bucket w.
Proof. unfold Speechtxt.transcribeAudioBuffer. frame_cases. Qed.

Lemma transcribeAudio_frame (audiofile : string) (sampleRate : N) (w w' : World)
    (r : result string) :
  Part000.transcribeAudio E audiofile sampleRate w = (r, w') ->
  table w' = table w /\ bucket w' = bucket w.
Proof. unfold Part000.transcribeAudio. frame_cases. Qed.

Lemma convertAudioToWav_frame (inputFile tempWavFile : string) (w w' : World)
    (r : result string) :
  Part000.convertAudioToWav E inputFile tempWavFile w = (r, w') ->
  table w' = table w /\ bucket w' = bucket w /\ recognize_log w' = recognize_log w.
Proof. unfold Part000.convertAudioToWav. frame_cases. Qed.

Lemma convertToMono_frame (inputFile outputFile : string) (w w' : World)
    (r : result N) :
  Part000.convertToMono E inputFile outputFile w = (r, w') ->
  table w' = table w /\ bucket w' = bucket w /\ recognize_log w' = recognize_log w.
Proof. unfold Part000.convertToMono. frame_cases. Qed.
End Frames.

(** Turns the equations of the stages that ran into what they left alone. *)
Ltac use_frames :=
  repeat match goal with
  | H : Speechtxt.transcribeAudioBuffer _ _ _ = _ |- _ =>
      apply transcribeAudioBuffer_frame in H; destruct H as (? & ?)
  | H : Part000.transcribeAudio _ _ _ _ = _ |- _ =>
      apply transcribeAudio_frame in H; destruct H as (? & ?)
  | H : Part000.convertAudioToWav _ _ _ _ = _ |- _ =>
      apply convertAudioToWav_frame in H; destruct H as (? & ? & ?)
  | H : Part000.convertToMono _ _ _ _ = _ |- _ =>
      apply convertToMono_frame in H; destruct H as (? & ? & ?)
  | H : saveTranscriptionToCloud _ _ _ _ = _ |- _ =>
      apply saveTranscriptionToCloud_frame in H; destruct H as (? & ? & ?)
  | H : Speechtotext_create _ _ _ = _ |- _ =>
      apply Speechtotext_create_frame in H; destruct H as (? & ? & ?)
  | H : is_ok (Throw _) = false -> _ |- _ => specialize (H eq_refl)
  end.

Section Handlers.
Context (E : Externals).

Lemma post_speechtotext_buffer_runs (req : Speechtxt.Request) (w : World) :
  exists resp w',
    Speechtxt.post_speechtotext E req w = (Ok resp, w')
    /\ (status resp = 201 ->
        exists f monoBuffer transcription transcriptionUrl row w1 w2,
          Speechtxt.file req = Some f
          /\ Speechtxt.convertToMonoBuffer E (Speechtxt.buffer f) = Ok monoBuffer
          /\ Speechtxt.transcribeAudioBuffer E monoBuffer w = (Ok transcription, w1)
          /\ saveTranscriptionToCloud E transcription (js_string (Speechtxt.title req)) w1
             = (Ok transcriptionUrl, w2)
          /\ Speechtotext_create E
               (mkRow transcriptionUrl transcription (js_string (Speechtxt.title req))
                  (js_string (Speechtxt.email req))) w2
             = (Ok row, w'))
    /\ (status resp <> 201 -> table w' = table w)
    /\ (forall f, Speechtxt.file req = Some f ->
         is_ok (Speechtxt.convertToMonoBuffer E (Speechtxt.buffer f)) = false ->
         status resp <> 201
         /\ recognize_log w' = recognize_log w /\ bucket w' = bucket w
         /\ table w' = table w).
Proof.
  unfold Speechtxt.post_speechtotext, Speechtxt.file_buffer.
  unfold try_catch, bind, lift, ret, console_error.
  repeat case_step;
    (eexists _, _; split; [reflexivity|]; simpl; split; [|split];
     [ intros Hst;
       first [discriminate Hst | do 7 eexists; repeat split; eassumption]
     | intros Hst; first [exfalso; apply Hst; reflexivity | use_frames; congruence]
     | intros f Hf Hbad; simplify_eq;
       first [ match goal with
               | H : Speechtxt.convertToMonoBuffer _ _ = Ok _ |- _ =>
                   rewrite H in Hbad; discriminate Hbad
               end
             | repeat split; first [discriminate | reflexivity] ] ]).
Qed.

Lemma post_speechtotext_files_runs (req : Part000.Request) (w : World) :
  exists resp w',
    Part000.post_speechtotext E req w = (Ok resp, w')
    /\ (status resp = 201 ->
        exists f wavFile sampleRate transcription transcriptionUrl row w1 w2 w3 w4,
          let tempWavFile :=
            path_join "uploads" (path_parse_name E (Part000.filename f) +:+ "_temp.wav") in
          let monoFile :=
            path_join "uploads" (path_parse_name E (Part000.filename f) +:+ "_mono.wav") in
          Part000.file req = Some f
          /\ Part000.convertAudioToWav E (Part000.path f) tempWavFile w
             = (Ok wavFile, w1)
          /\ Part000.convertToMono E tempWavFile monoFile w1 = (Ok sampleRate, w2)
          /\ Part000.transcribeAudio E monoFile sampleRate w2 = (Ok transcription, w3)
          /\ saveTranscriptionToCloud E transcription (Part000.filename f) w3
             = (Ok transcriptionUrl, w4)
          /\ Speechtotext_create E
               (mkRow transcriptionUrl transcription (Part000.filename f)
                  (js_string (Part000.email req))) w4
             = (Ok row, w'))
    /\ (status resp <> 201 -> table w' = table w)
    /\ (forall f, Part000.file req = Some f ->
         let tempWavFile :=
           path_join "uploads" (path_parse_name E (Part000.filename f) +:+ "_temp.wav") in
         let monoFile :=
           path_join "uploads" (path_parse_name E (Part000.filename f) +:+ "_mono.wav") in
         let normalized := Part000.convertAudioToWav E (Part000.path f) tempWavFile w in
         is_ok (fst normalized) = false
         \/ is_ok (fst (Part000.convertToMono E tempWavFile monoFile (snd normalized)))
            = false ->
         status resp <> 201
         /\ recognize_log w' = recognize_log w /\ bucket w' = bucket w
         /\ table w' = table w).
Proof.
  unfold Part000.post_speechtotext, Part000.the_file.
  unfold try_catch, bind, lift, ret, console_error.
  repeat case_step;
    (eexists _, _; split; [reflexivity|]; simpl; split; [|split];
     [ intros Hst;
       first [discriminate Hst | do 10 eexists; repeat split; eassumption]
     | intros Hst; first [exfalso; apply Hst; reflexivity | use_frames; congruence]
     | intros f Hf Hbad; simplify_eq; simpl in Hbad;
       repeat match goal with
              | H : _ = (_, _) |- _ => rewrite H in Hbad; simpl in Hbad
              end;
       first [ destruct Hbad; discriminate
             | use_frames; repeat split; first [discriminate | congruence] ] ]).
Qed.

Lemma post_speechtotext_buffer_400 (req : Speechtxt.Request) (w : World) :
  falsy (Speechtxt.email req) = true \/ falsy (Speechtxt.title req) = true
  \/ Speechtxt.file req = None ->
  Speechtxt.post_speechtotext E req w
  = (Ok (mkResponse 400 (JError "Email, title, and audio file are required")), w).
Proof.
  intros Hmissing. unfold Speechtxt.post_speechtotext, try_catch.
  assert (falsy (Speechtxt.email req) || falsy (Speechtxt.title req)
          || bool_decide (Speechtxt.file req = None) = true) as ->; [|reflexivity].
  destruct Hmissing as [H|[H|H]]; rewrite H.
  - reflexivity.
  - rewrite orb_true_r. reflexivity.
  - rewrite bool_decide_eq_true_2 by reflexivity. apply orb_true_r.
Qed.

Lemma post_speechtotext_files_400 (req : Part000.Request) (w : World) :
  falsy (Part000.email req) = true \/ falsy (Part000.title req) = true
  \/ Part000.file req = None ->
  Part000.post_speechtotext E req w
  = (Ok (mkResponse 400 (JError "Email, title, and audio file are required")), w).
Proof.
  intros Hmissing. unfold Part000.post_speechtotext, try_catch.
  assert (falsy (Part000.email req) || falsy (Part000.title req)
          || bool_decide (Part000.file req = None) = true) as ->; [|reflexivity].
  destruct Hmissing as [H|[H|H]]; rewrite H.
  - reflexivity.
  - rewrite orb_true_r. reflexivity.
  - rewrite bool_decide_eq_true_2 by reflexivity. apply orb_true_r.
Qed.
End Handlers.

(** C4. The handler answers 201 only when every stage succeeded, so a
    failure of any stage aborts the request; a request that does not end in
    201 leaves the table, and so what [GET /speechtotext/:email] returns,
    as it was; and when the normaliser or the downmixer fails, nothing has
    been sent to the speech client and nothing has been stored. *)
Theorem upload_failure_persists_nothing (E : Externals) :
  (forall (req : Speechtxt.Request) (w : World),
      exists resp w',
        Speechtxt.post_speechtotext E req w = (Ok resp, w')
        /\ (status resp = 201 ->
            exists f monoBuffer transcription transcriptionUrl row w1 w2,
              Speechtxt.file req = Some f
              /\ Speechtxt.convertToMonoBuffer E (Speechtxt.buffer f) = Ok monoBuffer
              /\ Speechtxt.transcribeAudioBuffer E monoBuffer w = (Ok transcription, w1)
              /\ saveTranscriptionToCloud E transcription
                   (js_string (Speechtxt.title req)) w1
                 = (Ok transcriptionUrl, w2)
              /\ Speechtotext_create E
                   (mkRow transcriptionUrl transcription (js_string (Speechtxt.title req))
                      (js_string (Speechtxt.email req))) w2
                 = (Ok row, w'))
        /\ (status resp <> 201 ->
            table w' = table w
            /\ forall email : string,
                 fst (get_speechtotext E email w') = fst (get_speechtotext E email w))
        /\ (forall f, Speechtxt.file req = Some f ->
            is_ok (Speechtxt.convertToMonoBuffer E (Speechtxt.buffer f)) = false ->
            status resp <> 201
            /\ recognize_log w' = recognize_log w /\ bucket w' = bucket w
            /\ table w' = table w))
  /\ (forall (req : Part000.Request) (w : World),
        exists resp w',
          Part000.post_speechtotext E req w = (Ok resp, w')
          /\ (status resp = 201 ->
              exists f wavFile sampleRate transcription transcriptionUrl row w1 w2 w3 w4,
                let tempWavFile :=
                  path_join "uploads"
                    (path_parse_name E (Part000.filename f) +:+ "_temp.wav") in
                let monoFile :=
                  path_join "uploads"
                    (path_parse_name E (Part000.filename f) +:+ "_mono.wav") in
                Part000.file req = Some f
                /\ Part000.convertAudioToWav E (Part000.path f) tempWavFile w
                   = (Ok wavFile, w1)
                /\ Part000.convertToMono E tempWavFile monoFile w1 = (Ok sampleRate, w2)
                /\ Part000.transcribeAudio E monoFile sampleRate w2 = (Ok transcription, w3)
                /\ saveTranscriptionToCloud E transcription (Part000.filename f) w3
                   = (Ok transcriptionUrl, w4)
                /\ Speechtotext_create E
                     (mkRow transcriptionUrl transcription (Part000.filename f)
                        (js_string (Part000.email req))) w4
                   = (Ok row, w'))
          /\ (status resp <> 201 ->
              table w' = table w
              /\ forall email : string,
                   fst (get_speechtotext E email w') = fst (get_speechtotext E email w))
          /\ (forall f, Part000.file req = Some f ->
              let tempWavFile :=
                path_join "uploads"
                  (path_parse_name E (Part000.filename f) +:+ "_temp.wav") in
              let monoFile :=
                path_join "uploads"
                  (path_parse_name E (Part000.filename f) +:+ "_mono.wav") in
              let normalized :=
                Part000.convertAudioToWav E (Part000.path f) tempWavFile w in
              is_ok (fst normalized) = false
              \/ is_ok (fst (Part000.convertToMono E tempWavFile monoFile (snd normalized)))
                 = false ->
              status resp <> 201
              /\ recognize_log w' = recognize_log w /\ bucket w' = bucket w
              /\ table w' = table w)).
Proof.
  split; intros req w.
  - destruct (post_speechtotext_buffer_runs E req w)
      as (resp & w' & Hrun & Hdone & Hdb & Hstage).
    exists resp, w'. split; [exact Hrun|]. split; [exact Hdone|]. split; [|exact Hstage].
    intros Hst. split; [exact (Hdb Hst)|].
    intros email. apply get_speechtotext_table. exact (Hdb Hst).
  - destruct (post_speechtotext_files_runs E req w)
      as (resp & w' & Hrun & Hdone & Hdb & Hstage).
    exists resp, w'. split; [exact Hrun|]. split; [exact Hdone|]. split; [|exact Hstage].
    intros Hst. split; [exact (Hdb Hst)|].
    intros email. apply get_speechtotext_table. exact (Hdb Hst).
Qed.

Lemma upload_failure_persists_nothing_witness :
  table (snd (Speechtxt.post_speechtotext Fixture.db_down Fixture.upload
                Fixture.empty_world)) = [].
Proof.
  destruct (proj1 (upload_failure_persists_nothing Fixture.db_down)
              Fixture.upload Fixture.empty_world)
    as (resp & w' & Hrun & _ & Hdb & _).
  rewrite Hrun. simpl. apply Hdb.
  apply (f_equal fst) in Hrun. vm_compute in Hrun.
  injection Hrun as <-. simpl. discriminate.
Defined.

(** C10. When the email, the title or the file is missing, the handler
    answers 400 and the world is untouched: no file written, nothing sent
    to the speech client, nothing stored. *)
Theorem post_speechtotext_missing_field (E : Externals) :
  (forall (req : Speechtxt.Request) (w : World),
      falsy (Speechtxt.email req) = true \/ falsy (Speechtxt.title req) = true
      \/ Speechtxt.file req = None ->
      Speechtxt.post_speechtotext E req w
      = (Ok (mkResponse 400 (JError "Email, title, and audio file are required")), w))
  /\ (forall (req : Part000.Request) (w : World),
        falsy (Part000.email req) = true \/ falsy (Part000.title req) = true
        \/ Part000.file req = None ->
        Part000.post_speechtotext E req w
        = (Ok (mkResponse 400 (JError "Email, title, and audio file are required")), w)).
Proof.
  split; intros req w Hmissing.
  - apply post_speechtotext_buffer_400. exact Hmissing.
  - apply post_speechtotext_files_400. exact Hmissing.
Qed.

Lemma post_speechtotext_missing_field_witness :
  Speechtxt.post_speechtotext Fixture.healthy Fixture.upload_without_title
    Fixture.empty_world
  = (Ok (mkResponse 400 (JError "Email, title, and audio file are required")),
     Fixture.empty_world)
  /\ Part000.post_speechtotext Fixture.healthy Fixture.stored_upload_without_email
       Fixture.world_with_upload
     = (Ok (mkResponse 400 (JError "Email, title, and audio file are required")),
        Fixture.world_with_upload).
Proof.
  split.
  - apply (proj1 (post_speechtotext_missing_field Fixture.healthy)).
    right. left. reflexivity.
  - apply (proj2 (post_speechtotext_missing_field Fixture.healthy)).
    left. reflexivity.
Defined.

(** ** Runs on the concrete environment *)

(** A healthy upload is transcribed, stored and recorded. *)
Example healthy_upload_is_recorded :
  let run := Speechtxt.post_speechtotext Fixture.healthy Fixture.upload Fixture.empty_world in
  (status <$> match fst run with Ok r => Some r | Throw _ => None end) = Some 201
  /\ length (table (snd run)) = 1
  /\ length (recognize_log (snd run)) = 1.
Proof. vm_compute. repeat split. Qed.

(** The same through the on-disk server. *)
Example healthy_stored_upload_is_recorded :
  let run :=
    Part000.post_speechtotext Fixture.healthy Fixture.stored_upload Fixture.world_with_upload in
  (status <$> match fst run with Ok r => Some r | Throw _ => None end) = Some 201
  /\ length (table (snd run)) = 1.
Proof. vm_compute. repeat split. Qed.

(** When the insert fails the answer is 500 and the table is as before; the
    transcript saved just before stays in the bucket. *)
Example failed_insert_leaves_object :
  let run := Speechtxt.post_speechtotext Fixture.db_down Fixture.upload Fixture.empty_world in
  (status <$> match fst run with Ok r => Some r | Throw _ => None end) = Some 500
  /\ table (snd run) = []
  /\ bucket (snd run) !! "transcriptions/rapat.txt" = Some "halo".
Proof. vm_compute. repeat split. Qed.

(** * Further properties of the code *)

(** ** The mixed channel *)

(** X1. The mixed channel is as long as channel 0; where channel 1 has run
    out, the mixed sample is [NaN]. *)
Theorem monoChannel_past_second_channel (ch0 ch1 : list sample) (i : nat) :
  i < length ch0 ->
  length ch1 <= i ->
  length (monoChannel ch0 ch1) = length ch0
  /\ monoChannel ch0 ch1 !! i = Some NaN.
Proof.
  intros Hi Hshort. split; [apply monoChannel_length|].
  rewrite monoChannel_lookup.
  destruct (lookup_lt_is_Some_2 ch0 i Hi) as [x Hx]. rewrite Hx. simpl.
  unfold js_at at 2. rewrite (lookup_ge_None_2 ch1 i Hshort).
  destruct (js_at ch0 i); reflexivity.
Qed.

Lemma monoChannel_past_second_channel_witness :
  monoChannel [Num 1; Num (1 # 2)] [Num 1] !! 1 = Some NaN.
Proof.
  apply (monoChannel_past_second_channel [Num 1; Num (1 # 2)] [Num 1] 1); simpl; lia.
Defined.

Lemma js_mean_swap (x y : sample) :
  sample_eq (js_fround (js_half (js_add x y))) (js_fround (js_half (js_add y x))).
Proof.
  destruct x as [x|], y as [y|]; simpl; try exact I.
  assert (H : (x + y == y + x)%Q) by ring.
  rewrite H. reflexivity.
Qed.

Lemma js_mean_same (x : sample) :
  is_float32 x -> sample_eq (js_fround (js_half (js_add x x))) x.
Proof.
  destruct x as [x|]; simpl; [|intros _; exact I].
  intros (m & e & Hx & Hm & He).
  assert (Hmean : ((x + x) / 2 == x)%Q) by field.
  rewrite (mean_exact x x m e) by (first [rewrite Hmean; exact Hx | lia]).
  exact Hmean.
Qed.

(** X2. Swapping the two channels does not change the mix. *)
Theorem monoChannel_swap (chL chR : list sample) :
  length chL = length chR ->
  Forall2 sample_eq (monoChannel chL chR) (monoChannel chR chL).
Proof.
  intros Hlen. apply Forall2_same_length_lookup. split.
  - rewrite !monoChannel_length. exact Hlen.
  - intros i a b Ha Hb. rewrite monoChannel_lookup in Ha, Hb.
    destruct (chL !! i) as [x|] eqn:Hx; [|discriminate].
    destruct (chR !! i) as [y|] eqn:Hy; [|discriminate].
    simpl in Ha, Hb. injection Ha as <-. injection Hb as <-.
    rewrite (js_at_lookup _ _ _ Hx), (js_at_lookup _ _ _ Hy).
    apply js_mean_swap.
Qed.

Lemma monoChannel_swap_witness :
  Forall2 sample_eq
    (monoChannel [Num (1 # 2); Num (-1)] [Num (1 # 4); Num 1])
    (monoChannel [Num (1 # 4); Num 1] [Num (1 # 2); Num (-1)]).
Proof. apply monoChannel_swap. reflexivity. Defined.

(** X3. Two identical channels of binary32 samples mix to that channel. *)
Theorem monoChannel_same (ch : list sample) :
  Forall is_float32 ch ->
  Forall2 sample_eq (monoChannel ch ch) ch.
Proof.
  intros Hch.
  apply Forall2_same_length_lookup. split; [apply monoChannel_length|].
  intros i a b Ha Hb. rewrite monoChannel_lookup, Hb in Ha.
  simpl in Ha. injection Ha as <-.
  rewrite (js_at_lookup _ _ _ Hb). apply js_mean_same.
  exact (proj1 (Forall_lookup _ _) Hch i b Hb).
Qed.

Lemma monoChannel_same_witness :
  Forall2 sample_eq
    (monoChannel [Num (32769 # 1073741824); Num (-1); NaN]
       [Num (32769 # 1073741824); Num (-1); NaN])
    [Num (32769 # 1073741824); Num (-1); NaN].
Proof.
  apply monoChannel_same. repeat constructor.
  - exists 32769%Z, (-30)%Z. split; [reflexivity | split; lia].
  - exists (-1)%Z, 0%Z. split; [reflexivity | split; lia].
Defined.

(** ** Each stage, outcome by outcome *)

Section Stages.
Context (E : Externals).

Lemma transcribeAudioBuffer_cases (audioBuffer : Buffer) (w : World) :
  Speechtxt.transcribeAudioBuffer E audioBuffer w
  = match wav_decode E audioBuffer with
    | Throw e => (Throw e, w)
    | Ok decoded =>
        let request :=
          mkRecognizeRequest (toString_base64 E audioBuffer) "LINEAR16"
            (sampleRate decoded) "id-ID" in
        let w1 := set_recognize_log (fun l => l ++ [request]) w in
        match recognize E request with
        | Throw e => (Throw e, w1)
        | Ok results =>
            match first_transcripts results with
            | Throw e => (Throw e, w1)
            | Ok transcripts => (Ok (join_lines transcripts), w1)
            end
        end
    end.
Proof.
  unfold Speechtxt.transcribeAudioBuffer, Speechtxt.getSampleRateFromWavBuffer.
  unfold bind, lift, ret, client_recognize.
  destruct (wav_decode E audioBuffer) as [decoded|e]; simpl; [|reflexivity].
  destruct (recognize E _) as [results|e]; [|reflexivity].
  destruct (first_transcripts results); reflexivity.
Qed.

Lemma transcribeAudio_cases (audiofile : string) (rate : N) (w : World) :
  Part000.transcribeAudio E audiofile rate w
  = match disk w !! audiofile with
    | None => (Throw (Error "ENOENT: no such file or directory"), w)
    | Some file =>
        let request :=
          mkRecognizeRequest (toString_base64 E file) "LINEAR16" rate "id-ID" in
        let w1 := set_recognize_log (fun l => l ++ [request]) w in
        match recognize E request with
        | Throw e => (Throw e, w1)
        | Ok results =>
            match first_transcripts results with
            | Throw e => (Throw e, w1)
            | Ok transcripts => (Ok (join_lines transcripts), w1)
            end
        end
    end.
Proof.
  unfold Part000.transcribeAudio.
  unfold bind, lift, ret, client_recognize, fs_readFileSync.
  destruct (disk w !! audiofile) as [file|]; simpl; [|reflexivity].
  destruct (recognize E _) as [results|e]; [|reflexivity].
  destruct (first_transcripts results); reflexivity.
Qed.

Lemma saveTranscriptionToCloud_cases (transcription filename : string) (w : World) :
  saveTranscriptionToCloud E transcription filename w
  = let name := "transcriptions/" +:+ filename +:+ ".txt" in
    match save_error E name transcription with
    | Some e => (Throw e, w)
    | None =>
        (Ok ("https://storage.googleapis.com/" +:+ GCP_BUCKET_NAME E
               +:+ "/transcriptions/" +:+ filename +:+ ".txt"),
         set_bucket (insert name transcription) w)
    end.
Proof.
  unfold saveTranscriptionToCloud, bind, ret, file_save. simpl.
  destruct (save_error E _ transcription); reflexivity.
Qed.

(** What [convertToMono] does once the input file is read and decoded. *)
Lemma convertToMono_cases (inputFile outputFile : string) (w : World) :
  Part000.convertToMono E inputFile outputFile w
  = match disk w !! inputFile with
    | None => (Throw (Error "ENOENT: no such file or directory"), w)
    | Some buffer =>
        match wav_decode E buffer with
        | Throw e => (Throw e, w)
        | Ok decoded =>
            let write (data : Buffer) :=
              match writeFileSync_error E outputFile data with
              | Some e => (Throw e, w)
              | None => (Ok (sampleRate decoded), set_disk (insert outputFile data) w)
              end in
            match channelData decoded with
            | [] =>
                (Throw (TypeError "Cannot read properties of undefined (reading 'map')"), w)
            | [_] => write buffer
            | ch0 :: ch1 :: _ =>
                match wavEncoder_encode E
                        (mkAudioData (sampleRate decoded) [monoChannel ch0 ch1]) with
                | Throw e => (Throw e, w)
                | Ok encoded => write encoded
                end
            end
        end
    end.
Proof.
  unfold Part000.convertToMono, bind, fs_readFileSync, lift, throw, ret, fs_writeFileSync.
  destruct (disk w !! inputFile) as [buffer|]; [|reflexivity].
  destruct (wav_decode E buffer) as [decoded|e]; [|reflexivity].
  destruct (channelData decoded) as [|ch0 [|ch1 more]]; simpl.
  - reflexivity.
  - destruct (writeFileSync_error E outputFile buffer); reflexivity.
  - destruct (wavEncoder_encode E _) as [encoded|e]; [|reflexivity].
    destruct (writeFileSync_error E outputFile encoded); reflexivity.
Qed.

(** The in-memory handler as a decision tree. *)
Lemma post_speechtotext_buffer_cases (req : Speechtxt.Request) (w : World) :
  Speechtxt.post_speechtotext E req w
  = let failed (e : exn) (w0 : World) :=
      (Ok (mkResponse 500 (JFailure "Failed to create transcription")),
       set_console_log (fun l => l ++ [e]) w0) in
    if falsy (Speechtxt.email req) || falsy (Speechtxt.title req)
       || bool_decide (Speechtxt.file req = None)
    then (Ok (mkResponse 400 (JError "Email, title, and audio file are required")), w)
    else
      match Speechtxt.file_buffer (Speechtxt.file req) with
      | Throw e => failed e w
      | Ok fileBuffer =>
          match Speechtxt.convertToMonoBuffer E fileBuffer with
          | Throw e => failed e w
          | Ok monoBuffer =>
              match Speechtxt.transcribeAudioBuffer E monoBuffer w with
              | (Throw e, w1) => failed e w1
              | (Ok transcription, w1) =>
                  match saveTranscriptionToCloud E transcription
                          (js_string (Speechtxt.title req)) w1 with
                  | (Throw e, w2) => failed e w2
                  | (Ok transcriptionUrl, w2) =>
                      let row :=
                        mkRow transcriptionUrl transcription
                          (js_string (Speechtxt.title req))
                          (js_string (Speechtxt.email req)) in
                      match create_error E row with
                      | Some e => failed e w2
                      | None =>
                          (Ok (mkResponse 201
                                 (JCreated "Transcription created successfully" row)),
                           set_table (fun t => t ++ [row]) w2)
                      end
                  end
              end
          end
      end.
Proof.
  unfold Speechtxt.post_speechtotext.
  unfold try_catch, bind, lift, ret, console_error, Speechtotext_create.
  repeat case_step; reflexivity.
Qed.

(** The on-disk handler as a decision tree. *)
Lemma post_speechtotext_files_cases (req : Part000.Request) (w : World) :
  Part000.post_speechtotext E req w
  = let failed (e : exn) (w0 : World) :=
      (Ok (mkResponse 500 (JFailure "Failed to create transcription")),
       set_console_log (fun l => l ++ [e]) w0) in
    if falsy (Part000.email req) || falsy (Part000.title req)
       || bool_decide (Part000.file req = None)
    then (Ok (mkResponse 400 (JError "Email, title, and audio file are required")), w)
    else
      match Part000.the_file (Part000.file req) with
      | Throw e => failed e w
      | Ok file =>
          let tempWavFile :=
            path_join "uploads" (path_parse_name E (Part000.filename file) +:+ "_temp.wav") in
          let monoFile :=
            path_join "uploads" (path_parse_name E (Part000.filename file) +:+ "_mono.wav") in
          match Part000.convertAudioToWav E (Part000.path file) tempWavFile w with
          | (Throw e, w1) => failed e w1
          | (Ok _, w1) =>
              match Part000.convertToMono E tempWavFile monoFile w1 with
              | (Throw e, w2) => failed e w2
              | (Ok rate, w2) =>
                  match Part000.transcribeAudio E monoFile rate w2 with
                  | (Throw e, w3) => failed e w3
                  | (Ok transcription, w3) =>
                      match saveTranscriptionToCloud E transcription
                              (Part000.filename file) w3 with
                      | (Throw e, w4) => failed e w4
                      | (Ok transcriptionUrl, w4) =>
                          let row :=
                            mkRow transcriptionUrl transcription (Part000.filename file)
                              (js_string (Part000.email req)) in
                          match create_error E row with
                          | Some e => failed e w4
                          | None =>
                              (Ok (mkResponse 201
                                     (JCreated "Transcription created successfully" row)),
                               set_table (fun t => t ++ [row]) w4)
                          end
                      end
                  end
              end
          end
      end.
Proof.
  unfold Part000.post_speechtotext.
  unfold try_catch, bind, lift, ret, console_error, Speechtotext_create.
  repeat case_step; reflexivity.
Qed.
End Stages.

(** ** The downmixer when something goes wrong *)

(** X4. When the input does not decode, both downmixers throw the
    decoder's error; [convertToMono] then writes nothing. *)
Theorem downmix_decode_failure (E : Externals) (b : Buffer) (e : exn) :
  wav_decode E b = Throw e ->
  Speechtxt.convertToMonoBuffer E b = Throw e
  /\ forall (inputFile outputFile : string) (w : World),
       disk w !! inputFile = Some b ->
       Part000.convertToMono E inputFile outputFile w = (Throw e, w).
Proof.
  intros Hd. split.
  - unfold Speechtxt.convertToMonoBuffer. rewrite Hd. reflexivity.
  - intros inputFile outputFile w Hf.
    rewrite convertToMono_cases, Hf, Hd. reflexivity.
Qed.

Lemma downmix_decode_failure_witness :
  Speechtxt.convertToMonoBuffer Fixture.healthy [Byte.x00; Byte.xff]
  = Throw (Error "Invalid WAV file").
Proof.
  exact (proj1 (downmix_decode_failure Fixture.healthy [Byte.x00; Byte.xff]
                  (Error "Invalid WAV file") eq_refl)).
Defined.

(** X5. [convertToMono] either throws and leaves the world as it was, or
    returns the sample rate decoded from the input file and changes the
    output file only; a missing input file is an ENOENT error. *)
Theorem convertToMono_effect (E : Externals) (inputFile outputFile : string) (w : World) :
  match Part000.convertToMono E inputFile outputFile w with
  | (Throw _, w') => w' = w
  | (Ok n, w') =>
      exists buffer decoded out,
        disk w !! inputFile = Some buffer
        /\ wav_decode E buffer = Ok decoded
        /\ n = sampleRate decoded
        /\ w' = set_disk (insert outputFile out) w
  end
  /\ (disk w !! inputFile = None ->
      Part000.convertToMono E inputFile outputFile w
      = (Throw (Error "ENOENT: no such file or directory"), w)).
Proof.
  rewrite convertToMono_cases. split.
  - destruct (disk w !! inputFile) as [buffer|]; [|reflexivity].
    destruct (wav_decode E buffer) as [decoded|e] eqn:Hd; [|reflexivity].
    cbv zeta.
    destruct (channelData decoded) as [|ch0 [|ch1 more]]; [reflexivity| |].
    + destruct (writeFileSync_error E outputFile buffer); [reflexivity|].
      exists buffer, decoded, buffer. repeat split; assumption.
    + destruct (wavEncoder_encode E _) as [encoded|e]; [|reflexivity].
      destruct (writeFileSync_error E outputFile encoded); [reflexivity|].
      exists buffer, decoded, encoded. repeat split; assumption.
  - intros ->. reflexivity.
Qed.

(** ** Transcription *)

Lemma first_transcripts_all (results : list (list string)) :
  Forall (fun alternatives => alternatives <> []) results ->
  first_transcripts results = Ok (map (hd EmptyString) results).
Proof.
  induction 1 as [|alternatives rest Hne _ IH]; [reflexivity|].
  destruct alternatives as [|t alts]; [congruence|].
  simpl. rewrite IH. reflexivity.
Qed.

Lemma first_transcripts_some_empty (results : list (list string)) :
  Exists (fun alternatives => alternatives = []) results ->
  first_transcripts results
  = Throw (TypeError "Cannot read properties of undefined (reading 'transcript')").
Proof.
  induction 1 as [alternatives rest ->|alternatives rest _ IH]; [reflexivity|].
  destruct alternatives as [|t alts]; [reflexivity|].
  simpl. rewrite IH. reflexivity.
Qed.

(** X6. [transcribeAudioBuffer] sends nothing when the buffer does not
    decode; otherwise it sends exactly one request, LINEAR16, id-ID, at the
    sample rate decoded from the buffer, whatever the service answers, and
    touches nothing else. *)
Theorem transcribeAudioBuffer_request (E : Externals) (audioBuffer : Buffer) (w : World) :
  match wav_decode E audioBuffer with
  | Throw e => Speechtxt.transcribeAudioBuffer E audioBuffer w = (Throw e, w)
  | Ok decoded =>
      snd (Speechtxt.transcribeAudioBuffer E audioBuffer w)
      = set_recognize_log
          (fun l => l ++ [mkRecognizeRequest (toString_base64 E audioBuffer) "LINEAR16"
                            (sampleRate decoded) "id-ID"]) w
  end.
Proof.
  rewrite transcribeAudioBuffer_cases.
  destruct (wav_decode E audioBuffer) as [decoded|e]; [|reflexivity].
  cbv zeta. destruct (recognize E _) as [results|e]; [|reflexivity].
  destruct (first_transcripts results); reflexivity.
Qed.

(** X7. The transcript is the first alternative of every result, joined by
    newlines; a result without alternatives makes the call throw a
    TypeError (after the request was sent). *)
Theorem transcribeAudioBuffer_transcript (E : Externals) (audioBuffer : Buffer)
    (w : World) (decoded : AudioData) (results : list (list string)) :
  wav_decode E audioBuffer = Ok decoded ->
  recognize E (mkRecognizeRequest (toString_base64 E audioBuffer) "LINEAR16"
                 (sampleRate decoded) "id-ID") = Ok results ->
  (Forall (fun alternatives => alternatives <> []) results ->
   fst (Speechtxt.transcribeAudioBuffer E audioBuffer w)
   = Ok (join_lines (map (hd EmptyString) results)))
  /\ (Exists (fun alternatives => alternatives = []) results ->
      fst (Speechtxt.transcribeAudioBuffer E audioBuffer w)
      = Throw (TypeError "Cannot read properties of undefined (reading 'transcript')")).
Proof.
  intros Hd Hr. rewrite transcribeAudioBuffer_cases, Hd. cbv zeta. rewrite Hr.
  split; intros Hres.
  - rewrite (first_transcripts_all results Hres). reflexivity.
  - rewrite (first_transcripts_some_empty results Hres). reflexivity.
Qed.

Lemma transcribeAudioBuffer_transcript_witness :
  fst (Speechtxt.transcribeAudioBuffer Fixture.healthy Fixture.silent_clip
         Fixture.empty_world)
  = Ok (join_lines ["halo"; "dunia"]).
Proof.
  apply (proj1 (transcribeAudioBuffer_transcript Fixture.healthy Fixture.silent_clip
                  Fixture.empty_world Fixture.silent_audio
                  [["halo"]; ["dunia"]] eq_refl eq_refl)).
  repeat constructor; discriminate.
Defined.

(** X8. [transcribeAudio] throws ENOENT and sends nothing when the file is
    missing; otherwise it sends the bytes of the file at the sample rate it
    was given. *)
Theorem transcribeAudio_request (E : Externals) (audiofile : string) (rate : N) (w : World) :
  match disk w !! audiofile with
  | None =>
      Part000.transcribeAudio E audiofile rate w
      = (Throw (Error "ENOENT: no such file or directory"), w)
  | Some file =>
      snd (Part000.transcribeAudio E audiofile rate w)
      = set_recognize_log
          (fun l => l ++ [mkRecognizeRequest (toString_base64 E file) "LINEAR16"
                            rate "id-ID"]) w
  end.
Proof.
  rewrite transcribeAudio_cases.
  destruct (disk w !! audiofile) as [file|]; [|reflexivity].
  cbv zeta. destruct (recognize E _) as [results|e]; [|reflexivity].
  destruct (first_transcripts results); reflexivity.
Qed.

(** ** The bucket *)

Lemma append_length (s t : string) :
  String.length (s +:+ t) = String.length s + String.length t.
Proof. induction s as [|c s IH]; simpl; [reflexivity | rewrite IH; reflexivity]. Qed.

Lemma append_right_inj (t s1 s2 : string) : s1 +:+ t = s2 +:+ t -> s1 = s2.
Proof.
  revert s2. induction s1 as [|c s1 IH]; intros [|c' s2] H; simpl in H.
  - reflexivity.
  - apply (f_equal String.length) in H. simpl in H. rewrite !append_length in H.
    simpl in H. lia.
  - apply (f_equal String.length) in H. simpl in H. rewrite !append_length in H.
    simpl in H. lia.
  - injection H as -> H. f_equal. apply IH. exact H.
Qed.

Lemma object_name_inj (f1 f2 : string) :
  "transcriptions/" +:+ f1 +:+ ".txt" = "transcriptions/" +:+ f2 +:+ ".txt" -> f1 = f2.
Proof.
  intros H. apply (inj (String.append "transcriptions/")) in H.
  apply append_right_inj in H. exact H.
Qed.

(** X9. A successful [saveTranscriptionToCloud] stores the transcript under
    [transcriptions/<filename>.txt], leaves every other object and the rest
    of the world alone, and returns the public URL of that object; a failed
    one changes nothing. *)
Theorem saveTranscriptionToCloud_effect (E : Externals)
    (transcription filename : string) (w : World) :
  match saveTranscriptionToCloud E transcription filename w with
  | (Ok url, w') =>
      url = "https://storage.googleapis.com/" +:+ GCP_BUCKET_NAME E
              +:+ "/transcriptions/" +:+ filename +:+ ".txt"
      /\ bucket w' !! ("transcriptions/" +:+ filename +:+ ".txt") = Some transcription
      /\ (forall name : string,
            name <> "transcriptions/" +:+ filename +:+ ".txt" ->
            bucket w' !! name = bucket w !! name)
      /\ disk w' = disk w /\ table w' = table w
      /\ recognize_log w' = recognize_log w /\ console_log w' = console_log w
  | (Throw e, w') =>
      w' = w
      /\ save_error E ("transcriptions/" +:+ filename +:+ ".txt") transcription = Some e
  end.
Proof.
  rewrite saveTranscriptionToCloud_cases. cbv zeta.
  destruct (save_error E _ transcription) as [e|]; [split; reflexivity|].
  split; [reflexivity|]. split; [simpl; apply lookup_insert_eq|].
  split; [|repeat split].
  intros name Hne. simpl. apply lookup_insert_ne. congruence.
Qed.

(** X10. Transcripts saved under different file names do not overwrite one
    another, and their URLs differ. *)
Theorem saves_under_different_names (E : Externals)
    (t1 t2 f1 f2 url1 url2 : string) (w w1 w2 : World) :
  f1 <> f2 ->
  saveTranscriptionToCloud E t1 f1 w = (Ok url1, w1) ->
  saveTranscriptionToCloud E t2 f2 w1 = (Ok url2, w2) ->
  bucket w2 !! ("transcriptions/" +:+ f1 +:+ ".txt") = Some t1
  /\ bucket w2 !! ("transcriptions/" +:+ f2 +:+ ".txt") = Some t2
  /\ url1 <> url2.
Proof.
  intros Hne H1 H2.
  rewrite saveTranscriptionToCloud_cases in H1, H2. cbv zeta in H1, H2.
  destruct (save_error E _ t1); [discriminate|]. injection H1 as <- <-.
  destruct (save_error E _ t2); [discriminate|]. injection H2 as <- <-.
  simpl. split; [|split].
  - rewrite lookup_insert_ne by (intros H; apply Hne; symmetry; exact (object_name_inj _ _ H)).
    apply lookup_insert_eq.
  - apply lookup_insert_eq.
  - intros H. apply Hne.
    apply (inj (String.append "https://storage.googleapis.com/")) in H.
    apply (inj (String.append (GCP_BUCKET_NAME E))) in H.
    apply (inj (String.append "/transcriptions/")) in H.
    apply append_right_inj in H. exact H.
Qed.

Lemma saves_under_different_names_witness :
  exists w2 : World,
    bucket w2 !! "transcriptions/rapat.txt" = Some "halo"
    /\ bucket w2 !! "transcriptions/kuliah.txt" = Some "dunia".
Proof.
  eexists.
  refine (let H := saves_under_different_names Fixture.healthy "halo" "dunia"
                     "rapat" "kuliah" _ _ Fixture.empty_world _ _ _ eq_refl eq_refl in
          conj (proj1 H) (proj1 (proj2 H))).
  discriminate.
Defined.

(** ** The upload handlers, stage by stage *)

Lemma falsy_false (x : option string) :
  falsy x = false -> exists s, x = Some s /\ s <> EmptyString.
Proof.
  destruct x as [s|]; simpl; [|discriminate].
  destruct (decide (s = EmptyString)); [discriminate|]. eauto.
Qed.

Lemma present_fields (email title : option string) {A} (file : option A) :
  falsy email || falsy title || bool_decide (file = None) = false ->
  exists e t f,
    email = Some e /\ e <> EmptyString /\ title = Some t /\ t <> EmptyString
    /\ file = Some f.
Proof.
  intros H. apply orb_false_iff in H as [H Hf]. apply orb_false_iff in H as [He Ht].
  destruct (falsy_false _ He) as (e & -> & Hne).
  destruct (falsy_false _ Ht) as (t & -> & Hnt).
  destruct file as [f|]; [|rewrite bool_decide_eq_true_2 in Hf by reflexivity; discriminate].
  exists e, t, f. repeat split; assumption.
Qed.

Section Created.
Context (E : Externals).

(** A 201 of the in-memory handler, with the world it leaves. *)
Lemma post_speechtotext_buffer_created (req : Speechtxt.Request) (w w' : World)
    (resp : Response) :
  Speechtxt.post_speechtotext E req w = (Ok resp, w') ->
  status resp = 201 ->
  exists email title f monoBuffer decoded results transcripts,
    let request :=
      mkRecognizeRequest (toString_base64 E monoBuffer) "LINEAR16"
        (sampleRate decoded) "id-ID" in
    let transcription := join_lines transcripts in
    let name := "transcriptions/" +:+ title +:+ ".txt" in
    let url :=
      "https://storage.googleapis.com/" +:+ GCP_BUCKET_NAME E
        +:+ "/transcriptions/" +:+ title +:+ ".txt" in
    let row := mkRow url transcription title email in
    Speechtxt.email req = Some email /\ email <> EmptyString
    /\ Speechtxt.title req = Some title
    /\ Speechtxt.file req = Some f
    /\ Speechtxt.convertToMonoBuffer E (Speechtxt.buffer f) = Ok monoBuffer
    /\ wav_decode E monoBuffer = Ok decoded
    /\ recognize E request = Ok results
    /\ first_transcripts results = Ok transcripts
    /\ resp = mkResponse 201 (JCreated "Transcription created successfully" row)
    /\ w' = set_table (fun t => t ++ [row])
              (set_bucket (insert name transcription)
                 (set_recognize_log (fun l => l ++ [request]) w)).
Proof.
  intros Hrun Hst. rewrite post_speechtotext_buffer_cases in Hrun. cbv zeta in Hrun.
  destruct (falsy (Speechtxt.email req) || falsy (Speechtxt.title req)
            || bool_decide (Speechtxt.file req = None)) eqn:Hreq.
  { injection Hrun as <- <-. discriminate Hst. }
  destruct (present_fields _ _ _ Hreq) as (email & title & f & He & Hne & Ht & _ & Hf).
  rewrite He, Ht, Hf in Hrun. cbn [Speechtxt.file_buffer js_string] in Hrun.
  destruct (Speechtxt.convertToMonoBuffer E (Speechtxt.buffer f)) as [monoBuffer|e] eqn:Hmono.
  2:{ injection Hrun as <- <-. discriminate Hst. }
  rewrite transcribeAudioBuffer_cases in Hrun. cbv zeta in Hrun.
  destruct (wav_decode E monoBuffer) as [decoded|e] eqn:Hd.
  2:{ injection Hrun as <- <-. discriminate Hst. }
  destruct (recognize E _) as [results|e] eqn:Hr.
  2:{ injection Hrun as <- <-. discriminate Hst. }
  destruct (first_transcripts results) as [transcripts|e] eqn:Hts.
  2:{ injection Hrun as <- <-. discriminate Hst. }
  rewrite saveTranscriptionToCloud_cases in Hrun. cbv zeta in Hrun.
  destruct (save_error E _ _) as [e|].
  { injection Hrun as <- <-. discriminate Hst. }
  destruct (create_error E _) as [e|].
  { injection Hrun as <- <-. discriminate Hst. }
  injection Hrun as <- <-.
  exists email, title, f, monoBuffer, decoded, results, transcripts.
  cbv zeta. repeat split; assumption.
Qed.
End Created.

Section CreatedFiles.
Context (E : Externals).

(** A successful [convertToMono], read backwards. *)
Lemma convertToMono_Ok (inputFile outputFile : string) (w w' : World) (n : N) :
  Part000.convertToMono E inputFile outputFile w = (Ok n, w') ->
  exists buffer decoded out,
    disk w !! inputFile = Some buffer
    /\ wav_decode E buffer = Ok decoded
    /\ n = sampleRate decoded
    /\ ((exists ch, channelData decoded = [ch]) /\ out = buffer
        \/ exists ch0 ch1 more,
             channelData decoded = ch0 :: ch1 :: more
             /\ wavEncoder_encode E
                  (mkAudioData (sampleRate decoded) [monoChannel ch0 ch1]) = Ok out)
    /\ w' = set_disk (insert outputFile out) w.
Proof.
  rewrite convertToMono_cases.
  destruct (disk w !! inputFile) as [buffer|]; [|discriminate].
  destruct (wav_decode E buffer) as [decoded|e] eqn:Hd; [|discriminate].
  cbv zeta.
  destruct (channelData decoded) as [|ch0 [|ch1 more]] eqn:Hc; [discriminate| |].
  - destruct (writeFileSync_error E outputFile buffer); [discriminate|].
    intros [= <- <-]. exists buffer, decoded, buffer.
    repeat split; first [assumption | left; split; [eexists; exact Hc | reflexivity]].
  - destruct (wavEncoder_encode E _) as [encoded|e] eqn:Henc; [|discriminate].
    destruct (writeFileSync_error E outputFile encoded); [discriminate|].
    intros [= <- <-]. exists buffer, decoded, encoded.
    repeat split;
      first [assumption | right; eexists _, _, _; split; [exact Hc | exact Henc]].
Qed.

(** A 201 of the on-disk handler, with the world it leaves. *)
Lemma post_speechtotext_files_created (req : Part000.Request) (w w' : World)
    (resp : Response) :
  Part000.post_speechtotext E req w = (Ok resp, w') ->
  status resp = 201 ->
  exists email f data normalized decoded monoBytes results transcripts,
    let tempWavFile :=
      path_join "uploads" (path_parse_name E (Part000.filename f) +:+ "_temp.wav") in
    let monoFile :=
      path_join "uploads" (path_parse_name E (Part000.filename f) +:+ "_mono.wav") in
    let request :=
      mkRecognizeRequest (toString_base64 E monoBytes) "LINEAR16"
        (sampleRate decoded) "id-ID" in
    let transcription := join_lines transcripts in
    let name := "transcriptions/" +:+ Part000.filename f +:+ ".txt" in
    let url :=
      "https://storage.googleapis.com/" +:+ GCP_BUCKET_NAME E
        +:+ "/transcriptions/" +:+ Part000.filename f +:+ ".txt" in
    let row := mkRow url transcription (Part000.filename f) email in
    Part000.email req = Some email /\ email <> EmptyString
    /\ Part000.file req = Some f
    /\ disk w !! Part000.path f = Some data
    /\ ffmpeg E "pcm_s16le" 16000 data = Ok normalized
    /\ wav_decode E normalized = Ok decoded
    /\ ((exists ch, channelData decoded = [ch]) /\ monoBytes = normalized
        \/ exists ch0 ch1 more,
             channelData decoded = ch0 :: ch1 :: more
             /\ wavEncoder_encode E
                  (mkAudioData (sampleRate decoded) [monoChannel ch0 ch1]) = Ok monoBytes)
    /\ recognize E request = Ok results
    /\ first_transcripts results = Ok transcripts
    /\ resp = mkResponse 201 (JCreated "Transcription created successfully" row)
    /\ w' = set_table (fun t => t ++ [row])
              (set_bucket (insert name transcription)
                 (set_recognize_log (fun l => l ++ [request])
                    (set_disk (insert monoFile monoBytes)
                       (set_disk (insert tempWavFile normalized) w)))).
Proof.
  intros Hrun Hst. rewrite post_speechtotext_files_cases in Hrun. cbv zeta in Hrun.
  destruct (falsy (Part000.email req) || falsy (Part000.title req)
            || bool_decide (Part000.file req = None)) eqn:Hreq.
  { injection Hrun as <- <-. discriminate Hst. }
  destruct (present_fields _ _ _ Hreq) as (email & title & f & He & Hne & Ht & _ & Hf).
  rewrite He, Hf in Hrun. cbn [Part000.the_file js_string] in Hrun.
  set (tempWavFile :=
         path_join "uploads" (path_parse_name E (Part000.filename f) +:+ "_temp.wav")) in *.
  set (monoFile :=
         path_join "uploads" (path_parse_name E (Part000.filename f) +:+ "_mono.wav")) in *.
  rewrite convertAudioToWav_cases in Hrun. cbv zeta in Hrun.
  destruct (disk w !! Part000.path f) as [data|] eqn:Hdata.
  2:{ injection Hrun as <- <-. discriminate Hst. }
  destruct (ffmpeg E "pcm_s16le" 16000 data) as [normalized|e] eqn:Hff.
  2:{ injection Hrun as <- <-. discriminate Hst. }
  destruct (Part000.convertToMono E tempWavFile monoFile _) as [[rate|e] w2] eqn:Hmix.
  2:{ injection Hrun as <- <-. discriminate Hst. }
  apply convertToMono_Ok in Hmix
    as (buffer & decoded & monoBytes & Hread & Hd & -> & Hbytes & ->).
  cbn [disk set_disk] in Hread. rewrite lookup_insert_eq in Hread.
  injection Hread as <-.
  rewrite transcribeAudio_cases in Hrun. cbn [disk set_disk] in Hrun.
  rewrite lookup_insert_eq in Hrun. cbv zeta in Hrun.
  destruct (recognize E _) as [results|e] eqn:Hr.
  2:{ injection Hrun as <- <-. discriminate Hst. }
  destruct (first_transcripts results) as [transcripts|e] eqn:Hts.
  2:{ injection Hrun as <- <-. discriminate Hst. }
  rewrite saveTranscriptionToCloud_cases in Hrun. cbv zeta in Hrun.
  destruct (save_error E _ _) as [e|].
  { injection Hrun as <- <-. discriminate Hst. }
  destruct (create_error E _) as [e|].
  { injection Hrun as <- <-. discriminate Hst. }
  injection Hrun as <- <-.
  exists email, f, data, normalized, decoded, monoBytes, results, transcripts.
  cbv zeta. repeat split; assumption.
Qed.
End CreatedFiles.

(** ** What the handlers do on every path *)

(** Walks a handler down to one leaf per outcome of the environment. *)
Ltac run_tree :=
  repeat (rewrite ?transcribeAudioBuffer_cases, ?transcribeAudio_cases,
            ?saveTranscriptionToCloud_cases, ?convertAudioToWav_cases,
            ?convertToMono_cases;
          cbv zeta; cbn [disk set_disk];
          rewrite ?lookup_insert_eq;
          match goal with
          | |- context [match ?x with _ => _ end] =>
              lazymatch x with
              | context [match _ with _ => _ end] => fail
              | _ => destruct x eqn:?
              end
          end).

Lemma missing_field_iff (email title : option string) {A} (file : option A) :
  falsy email || falsy title || bool_decide (file = None) = true
  <-> (falsy email = true \/ falsy title = true \/ file = None).
Proof.
  rewrite !orb_true_iff, bool_decide_eq_true. tauto.
Qed.

(** X11. Both handlers answer 400, 201 or 500, never throw, and answer 400
    exactly when the email, the title or the file is missing. *)
Theorem post_speechtotext_status (E : Externals) :
  (forall (req : Speechtxt.Request) (w : World),
      exists resp w',
        Speechtxt.post_speechtotext E req w = (Ok resp, w')
        /\ (status resp = 400 \/ status resp = 201 \/ status resp = 500)
        /\ (status resp = 400
            <-> (falsy (Speechtxt.email req) = true \/ falsy (Speechtxt.title req) = true
                 \/ Speechtxt.file req = None)))
  /\ (forall (req : Part000.Request) (w : World),
        exists resp w',
          Part000.post_speechtotext E req w = (Ok resp, w')
          /\ (status resp = 400 \/ status resp = 201 \/ status resp = 500)
          /\ (status resp = 400
              <-> (falsy (Part000.email req) = true \/ falsy (Part000.title req) = true
                   \/ Part000.file req = None))).
Proof.
  split; intros req w.
  - pose proof (missing_field_iff (Speechtxt.email req) (Speechtxt.title req)
                  (Speechtxt.file req)) as Hm.
    remember (falsy (Speechtxt.email req) = true \/ falsy (Speechtxt.title req) = true
              \/ Speechtxt.file req = None) as Missing eqn:HM. clear HM.
    rewrite post_speechtotext_buffer_cases. cbv zeta. unfold Speechtxt.file_buffer.
    destruct (falsy (Speechtxt.email req) || falsy (Speechtxt.title req)
              || bool_decide (Speechtxt.file req = None)) eqn:Hreq.
    + eexists _, _. split; [reflexivity|]. cbn. split; [auto|].
      split; [intros _; apply Hm; reflexivity | reflexivity].
    + assert (Hnot : ~ Missing) by (intros HM; apply Hm in HM; discriminate HM).
      clear Hm Hreq. run_tree.
      all: eexists _, _; split; [reflexivity|]; cbn; split; [auto|];
        split; intros H; first [discriminate H | contradiction].
  - pose proof (missing_field_iff (Part000.email req) (Part000.title req)
                  (Part000.file req)) as Hm.
    remember (falsy (Part000.email req) = true \/ falsy (Part000.title req) = true
              \/ Part000.file req = None) as Missing eqn:HM. clear HM.
    rewrite post_speechtotext_files_cases. cbv zeta. unfold Part000.the_file.
    destruct (falsy (Part000.email req) || falsy (Part000.title req)
              || bool_decide (Part000.file req = None)) eqn:Hreq.
    + eexists _, _. split; [reflexivity|]. cbn. split; [auto|].
      split; [intros _; apply Hm; reflexivity | reflexivity].
    + assert (Hnot : ~ Missing) by (intros HM; apply Hm in HM; discriminate HM).
      clear Hm Hreq. run_tree.
      all: eexists _, _; split; [reflexivity|]; cbn; split; [auto|];
        split; intros H; first [discriminate H | contradiction].
Qed.

(** X12. A handler that answers 500 has logged exactly one error; one
    that answers 400 or 201 has logged nothing. *)
Theorem post_speechtotext_logs_failures (E : Externals) :
  (forall (req : Speechtxt.Request) (w : World),
      exists resp w',
        Speechtxt.post_speechtotext E req w = (Ok resp, w')
        /\ (status resp = 500 -> exists e, console_log w' = console_log w ++ [e])
        /\ (status resp <> 500 -> console_log w' = console_log w))
  /\ (forall (req : Part000.Request) (w : World),
        exists resp w',
          Part000.post_speechtotext E req w = (Ok resp, w')
          /\ (status resp = 500 -> exists e, console_log w' = console_log w ++ [e])
          /\ (status resp <> 500 -> console_log w' = console_log w)).
Proof.
  split; intros req w.
  - rewrite post_speechtotext_buffer_cases. cbv zeta. unfold Speechtxt.file_buffer.
    run_tree.
    all: eexists _, _; split; [reflexivity|]; cbn; split;
      [ intros Hst; first [discriminate Hst | eexists; reflexivity]
      | intros Hst; first [reflexivity | exfalso; apply Hst; reflexivity] ].
  - rewrite post_speechtotext_files_cases. cbv zeta. unfold Part000.the_file.
    run_tree.
    all: eexists _, _; split; [reflexivity|]; cbn; split;
      [ intros Hst; first [discriminate Hst | eexists; reflexivity]
      | intros Hst; first [reflexivity | exfalso; apply Hst; reflexivity] ].
Qed.

Lemma is_Some_insert_keep (m : gmap string Buffer) (k p : string) (v : Buffer) :
  is_Some (m !! p) -> is_Some (<[k:=v]> m !! p).
Proof.
  intros H. destruct (decide (k = p)) as [->|Hne].
  - rewrite lookup_insert_eq. eauto.
  - rewrite lookup_insert_ne by exact Hne. exact H.
Qed.

(** X13. The in-memory handler never touches the disk; the on-disk handler
    never removes a file, on any path. *)
Theorem post_speechtotext_keeps_files (E : Externals) :
  (forall (req : Speechtxt.Request) (w : World),
      disk (snd (Speechtxt.post_speechtotext E req w)) = disk w)
  /\ (forall (req : Part000.Request) (w : World) (p : string),
        is_Some (disk w !! p) ->
        is_Some (disk (snd (Part000.post_speechtotext E req w)) !! p)).
Proof.
  split.
  - intros req w.
    rewrite post_speechtotext_buffer_cases. cbv zeta. unfold Speechtxt.file_buffer.
    run_tree; reflexivity.
  - intros req w p Hp.
    rewrite post_speechtotext_files_cases. cbv zeta. unfold Part000.the_file.
    run_tree; cbn; repeat apply is_Some_insert_keep; exact Hp.
Qed.

(** ** What a 201 means *)

(** X14. When the in-memory handler answers 201, the response carries the
    new row; the row has the title as file name, the submitter's email and
    the URL of the transcript object; the table gained exactly that row,
    the bucket exactly that object, the speech client exactly one request,
    and the disk and the console are as before. *)
Theorem created_means_recorded (E : Externals) (req : Speechtxt.Request)
    (w w' : World) (resp : Response) :
  Speechtxt.post_speechtotext E req w = (Ok resp, w') ->
  status resp = 201 ->
  exists email title row request,
    Speechtxt.email req = Some email /\ Speechtxt.title req = Some title
    /\ json resp = JCreated "Transcription created successfully" row
    /\ fileName row = title /\ createdByEmail row = email
    /\ audioUrl row
       = "https://storage.googleapis.com/" +:+ GCP_BUCKET_NAME E
           +:+ "/transcriptions/" +:+ title +:+ ".txt"
    /\ table w' = table w ++ [row]
    /\ bucket w' = <["transcriptions/" +:+ title +:+ ".txt" := text row]> (bucket w)
    /\ recognize_log w' = recognize_log w ++ [request]
    /\ encoding request = "LINEAR16" /\ languageCode request = "id-ID"
    /\ disk w' = disk w /\ console_log w' = console_log w.
Proof.
  intros Hrun Hst.
  destruct (post_speechtotext_buffer_created E req w w' resp Hrun Hst)
    as (email & title & f & monoBuffer & decoded & results & transcripts & H).
  cbv zeta in H. destruct H as (He & _ & Ht & _ & _ & _ & _ & _ & -> & ->).
  eexists email, title, _, _. cbn. repeat split; assumption.
Qed.

Lemma created_means_recorded_witness :
  length (table (snd (Speechtxt.post_speechtotext Fixture.healthy Fixture.upload
                        Fixture.empty_world))) = 1.
Proof.
  destruct (Speechtxt.post_speechtotext Fixture.healthy Fixture.upload Fixture.empty_world)
    as [[resp|e] w'] eqn:Hrun; [|vm_compute in Hrun; discriminate Hrun].
  assert (Hst : status resp = 201).
  { apply (f_equal fst) in Hrun. vm_compute in Hrun. injection Hrun as <-. reflexivity. }
  destruct (created_means_recorded Fixture.healthy Fixture.upload Fixture.empty_world
              w' resp Hrun Hst)
    as (email & title & row & request & _ & _ & _ & _ & _ & _ & Htable & _).
  cbn [snd]. rewrite Htable. reflexivity.
Defined.

(** X15. When the on-disk handler answers 201, the uploaded file went
    through the transcoder and the transcoder's output was decoded and
    downmixed: the bytes that were written to the mono file and sent to
    the speech client are the transcoder's output itself when it has one
    channel, and otherwise the encoding, at the decoded sample rate, of the
    mix of its channels 0 and 1.  They were sent at the decoded sample
    rate; the row has the stored file name, not the title; and both
    intermediate files are still on the disk. *)
Theorem created_means_recorded_files (E : Externals) (req : Part000.Request)
    (w w' : World) (resp : Response) :
  Part000.post_speechtotext E req w = (Ok resp, w') ->
  status resp = 201 ->
  exists email f data normalized decoded monoBytes row,
    let tempWavFile :=
      path_join "uploads" (path_parse_name E (Part000.filename f) +:+ "_temp.wav") in
    let monoFile :=
      path_join "uploads" (path_parse_name E (Part000.filename f) +:+ "_mono.wav") in
    Part000.email req = Some email /\ Part000.file req = Some f
    /\ disk w !! Part000.path f = Some data
    /\ ffmpeg E "pcm_s16le" 16000 data = Ok normalized
    /\ wav_decode E normalized = Ok decoded
    /\ ((exists ch, channelData decoded = [ch]) /\ monoBytes = normalized
        \/ exists ch0 ch1 more,
             channelData decoded = ch0 :: ch1 :: more
             /\ wavEncoder_encode E
                  (mkAudioData (sampleRate decoded) [monoChannel ch0 ch1]) = Ok monoBytes)
    /\ json resp = JCreated "Transcription created successfully" row
    /\ fileName row = Part000.filename f /\ createdByEmail row = email
    /\ table w' = table w ++ [row]
    /\ bucket w'
       = <["transcriptions/" +:+ Part000.filename f +:+ ".txt" := text row]> (bucket w)
    /\ recognize_log w'
       = recognize_log w
         ++ [mkRecognizeRequest (toString_base64 E monoBytes) "LINEAR16"
               (sampleRate decoded) "id-ID"]
    /\ disk w' = <[monoFile := monoBytes]> (<[tempWavFile := normalized]> (disk w))
    /\ disk w' !! monoFile = Some monoBytes
    /\ console_log w' = console_log w.
Proof.
  intros Hrun Hst.
  destruct (post_speechtotext_files_created E req w w' resp Hrun Hst)
    as (email & f & data & normalized & decoded & monoBytes & results & transcripts & H).
  cbv zeta in H.
  destruct H as (He & _ & Hf & Hdata & Hff & Hd & Hmix & _ & _ & -> & ->).
  eexists email, f, data, normalized, decoded, monoBytes, _.
  cbn. split; [exact He|]. split; [exact Hf|]. split; [exact Hdata|].
  split; [exact Hff|]. split; [exact Hd|]. split; [exact Hmix|].
  repeat split. apply lookup_insert_eq.
Qed.

Lemma created_means_recorded_files_witness :
  length (table (snd (Part000.post_speechtotext Fixture.healthy Fixture.stored_upload
                        Fixture.world_with_upload))) = 1.
Proof.
  destruct (Part000.post_speechtotext Fixture.healthy Fixture.stored_upload
              Fixture.world_with_upload)
    as [[resp|e] w'] eqn:Hrun; [|vm_compute in Hrun; discriminate Hrun].
  assert (Hst : status resp = 201).
  { apply (f_equal fst) in Hrun. vm_compute in Hrun. injection Hrun as <-. reflexivity. }
  destruct (created_means_recorded_files Fixture.healthy Fixture.stored_upload
              Fixture.world_with_upload w' resp Hrun Hst)
    as (email & f & data & normalized & decoded & monoBytes & row & H).
  cbv zeta in H. destruct H as (_ & _ & _ & _ & _ & _ & _ & _ & _ & Htable & _).
  cbn [snd]. rewrite Htable. reflexivity.
Defined.

(** ** The lookup endpoint *)

Section Lookup.
Context (E : Externals).

Lemma get_speechtotext_cases (email : string) (w : World) :
  get_speechtotext E email w
  = if decide (email = EmptyString) then
      (Ok (mkResponse 400 (JError "Email parameter is required")), w)
    else
      match findAll_error E email with
      | Some e =>
          (Ok (mkResponse 500 (JFailure "Failed to fetch transcriptions")),
           set_console_log (fun l => l ++ [e]) w)
      | None =>
          match filter (fun r => createdByEmail r = email) (table w) with
          | [] =>
              (Ok (mkResponse 404 (JMessage "No transcriptions found for this email")), w)
          | rows => (Ok (mkResponse 200 (JData rows)), w)
          end
      end.
Proof.
  unfold get_speechtotext, falsy.
  destruct (decide (email = EmptyString)); [reflexivity|].
  unfold try_catch, bind, ret, Speechtotext_findAll, console_error.
  destruct (findAll_error E email); [reflexivity|].
  destruct (filter _ (table w)); reflexivity.
Qed.
End Lookup.

(** X16. The lookup never throws and never changes the disk, the bucket,
    the table or what was sent to the speech client.  It answers 200
    exactly when the email is not empty, the query succeeds and the table
    has a row of that email; the data are then the rows of that email, all
    of them, in table order. *)
Theorem get_speechtotext_reads_only (E : Externals) (email : string) (w : World) :
  exists resp w',
    get_speechtotext E email w = (Ok resp, w')
    /\ disk w' = disk w /\ bucket w' = bucket w /\ table w' = table w
    /\ recognize_log w' = recognize_log w
    /\ (status resp = 200
        <-> (email <> EmptyString /\ findAll_error E email = None
             /\ exists r, r ∈ table w /\ createdByEmail r = email))
    /\ (status resp = 200 ->
        json resp = JData (filter (fun r => createdByEmail r = email) (table w))
        /\ w' = w).
Proof.
  rewrite get_speechtotext_cases.
  destruct (decide (email = EmptyString)) as [Hemail|Hemail].
  { eexists _, _. split; [reflexivity|]. cbn. repeat split; try discriminate.
    intros (Hne & _). contradiction. }
  destruct (findAll_error E email) as [e|] eqn:Hfind.
  { eexists _, _. split; [reflexivity|]. cbn. repeat split; try discriminate.
    intros (_ & Hnone & _). discriminate Hnone. }
  destruct (filter (fun r => createdByEmail r = email) (table w)) as [|r rows] eqn:Hrows.
  - eexists _, _. split; [reflexivity|]. cbn. repeat split; try discriminate.
    intros (_ & _ & r & Hin & Hr).
    assert (Hmem : r ∈ filter (fun r => createdByEmail r = email) (table w)).
    { apply list_elem_of_filter. split; assumption. }
    rewrite Hrows in Hmem. inversion Hmem.
  - eexists _, _. split; [reflexivity|]. cbn. repeat split; try assumption.
    exists r.
    assert (Hmem : r ∈ filter (fun r => createdByEmail r = email) (table w)).
    { rewrite Hrows. left. }
    apply list_elem_of_filter in Hmem. tauto.
Qed.

(** X17. After a 201 of the in-memory handler, the lookup for the
    submitter's email (when the query succeeds) answers 200 with the rows
    that email had before followed by the new row; the lookup for any other
    email answers as before. *)
Theorem created_row_is_listed (E : Externals) (req : Speechtxt.Request)
    (w w' : World) (resp : Response) (email : string) :
  Speechtxt.post_speechtotext E req w = (Ok resp, w') ->
  status resp = 201 ->
  Speechtxt.email req = Some email ->
  findAll_error E email = None ->
  (exists row,
      json resp = JCreated "Transcription created successfully" row
      /\ get_speechtotext E email w'
         = (Ok (mkResponse 200
                  (JData (filter (fun r => createdByEmail r = email) (table w) ++ [row]))),
            w'))
  /\ (forall other : string,
        other <> email ->
        fst (get_speechtotext E other w') = fst (get_speechtotext E other w)).
Proof.
  intros Hrun Hst Hemail Hfind.
  destruct (post_speechtotext_buffer_created E req w w' resp Hrun Hst)
    as (email' & title & f & monoBuffer & decoded & results & transcripts & H).
  cbv zeta in H. destruct H as (He & Hne & _ & _ & _ & _ & _ & _ & -> & ->).
  assert (email' = email) as -> by congruence.
  split.
  - eexists. split; [reflexivity|].
    rewrite get_speechtotext_cases.
    destruct (decide (email = EmptyString)); [contradiction|].
    rewrite Hfind. cbn [table set_table set_bucket set_recognize_log].
    rewrite filter_app, filter_cons_True by reflexivity. rewrite filter_nil.
    destruct (filter _ (table w)); reflexivity.
  - intros other Hother. rewrite !get_speechtotext_cases.
    cbn [table set_table set_bucket set_recognize_log].
    rewrite filter_app, filter_cons_False by (cbn; congruence). rewrite filter_nil, app_nil_r.
    destruct (decide (other = EmptyString)); [reflexivity|].
    destruct (findAll_error E other); [reflexivity|].
    destruct (filter _ (table w)); reflexivity.
Qed.

Lemma created_row_is_listed_witness :
  exists rows,
    fst (get_speechtotext Fixture.healthy "ani@example.com"
           (snd (Speechtxt.post_speechtotext Fixture.healthy Fixture.upload
                   Fixture.empty_world)))
    = Ok (mkResponse 200 (JData rows)).
Proof.
  destruct (Speechtxt.post_speechtotext Fixture.healthy Fixture.upload Fixture.empty_world)
    as [[resp|e] w'] eqn:Hrun; [|vm_compute in Hrun; discriminate Hrun].
  assert (Hst : status resp = 201).
  { apply (f_equal fst) in Hrun. vm_compute in Hrun. injection Hrun as <-. reflexivity. }
  destruct (created_row_is_listed Fixture.healthy Fixture.upload Fixture.empty_world
              w' resp "ani@example.com" Hrun Hst eq_refl eq_refl)
    as ((row & _ & Hget) & _).
  cbn [snd]. rewrite Hget. eexists. reflexivity.
Defined.

(** X18. Two uploads with the same title, both answered 201, leave two
    rows with the same URL, and the object behind that URL holds the
    second transcript only. *)
Theorem same_title_overwrites (E : Externals) (req1 req2 : Speechtxt.Request)
    (w w1 w2 : World) (resp1 resp2 : Response) :
  Speechtxt.title req1 = Speechtxt.title req2 ->
  Speechtxt.post_speechtotext E req1 w = (Ok resp1, w1) ->
  status resp1 = 201 ->
  Speechtxt.post_speechtotext E req2 w1 = (Ok resp2, w2) ->
  status resp2 = 201 ->
  exists row1 row2,
    json resp1 = JCreated "Transcription created successfully" row1
    /\ json resp2 = JCreated "Transcription created successfully" row2
    /\ table w2 = table w ++ [row1; row2]
    /\ audioUrl row1 = audioUrl row2
    /\ bucket w2 !! ("transcriptions/" +:+ js_string (Speechtxt.title req2) +:+ ".txt")
       = Some (text row2).
Proof.
  intros Htitle Hrun1 Hst1 Hrun2 Hst2.
  destruct (post_speechtotext_buffer_created E req1 w w1 resp1 Hrun1 Hst1)
    as (email1 & title1 & f1 & mono1 & d1 & results1 & ts1 & H1).
  destruct (post_speechtotext_buffer_created E req2 w1 w2 resp2 Hrun2 Hst2)
    as (email2 & title2 & f2 & mono2 & d2 & results2 & ts2 & H2).
  cbv zeta in H1, H2.
  destruct H1 as (_ & _ & Ht1 & _ & _ & _ & _ & _ & -> & ->).
  destruct H2 as (_ & _ & Ht2 & _ & _ & _ & _ & _ & -> & ->).
  assert (title1 = title2) as -> by congruence.
  eexists _, _. split; [reflexivity|]. split; [reflexivity|].
  rewrite Ht2. cbn. split; [|split].
  - rewrite <- app_assoc. reflexivity.
  - reflexivity.
  - apply lookup_insert_eq.
Qed.

Lemma same_title_overwrites_witness :
  length (table (snd (Speechtxt.post_speechtotext Fixture.healthy Fixture.upload
                        (snd (Speechtxt.post_speechtotext Fixture.healthy Fixture.upload
                                Fixture.empty_world))))) = 2.
Proof.
  destruct (Speechtxt.post_speechtotext Fixture.healthy Fixture.upload Fixture.empty_world)
    as [[resp1|e] w1] eqn:Hrun1; [|vm_compute in Hrun1; discriminate Hrun1].
  cbn [snd].
  destruct (Speechtxt.post_speechtotext Fixture.healthy Fixture.upload w1)
    as [[resp2|e] w2] eqn:Hrun2.
  2:{ exfalso. vm_compute in Hrun1. injection Hrun1 as <- <-.
      vm_compute in Hrun2. discriminate Hrun2. }
  assert (Hst1 : status resp1 = 201).
  { apply (f_equal fst) in Hrun1. vm_compute in Hrun1. injection Hrun1 as <-. reflexivity. }
  assert (Hst2 : status resp2 = 201).
  { pose proof Hrun1 as Hw. vm_compute in Hw. injection Hw as _ <-.
    apply (f_equal fst) in Hrun2. vm_compute in Hrun2. injection Hrun2 as <-. reflexivity. }
  destruct (same_title_overwrites Fixture.healthy Fixture.upload Fixture.upload
              Fixture.empty_world w1 w2 resp1 resp2 eq_refl Hrun1 Hst1 Hrun2 Hst2)
    as (row1 & row2 & _ & _ & Htable & _).
  cbn [snd]. rewrite Htable. reflexivity.
Defined.

(** ** Which inputs matter *)

(** X19. The on-disk handler only tests that a title is present: two
    requests that differ in their titles alone are handled alike. *)
Theorem title_is_not_used (E : Externals) (req1 req2 : Part000.Request) (w : World) :
  Part000.email req1 = Part000.email req2 ->
  Part000.file req1 = Part000.file req2 ->
  falsy (Part000.title req1) = false ->
  falsy (Part000.title req2) = false ->
  Part000.post_speechtotext E req1 w = Part000.post_speechtotext E req2 w.
Proof.
  intros He Hf Ht1 Ht2.
  rewrite !post_speechtotext_files_cases. cbv zeta.
  rewrite He, Hf, Ht1, Ht2. reflexivity.
Qed.

Lemma title_is_not_used_witness :
  Part000.post_speechtotext Fixture.healthy Fixture.stored_upload Fixture.world_with_upload
  = Part000.post_speechtotext Fixture.healthy
      (Part000.mkRequest (Some "ani@example.com") (Some "kuliah")
         (Some (Part000.mkFile "uploads/3f9a" "3f9a" "audio/wav")))
      Fixture.world_with_upload.
Proof.
  apply title_is_not_used; reflexivity.
Defined.

(** X20. The in-memory handler decodes the upload as it came: when the
    uploaded bytes do not decode, it answers 500, logs the decoder's error
    and does nothing else. *)
Theorem undecodable_upload_fails (E : Externals) (req : Speechtxt.Request) (w : World)
    (f : Speechtxt.UploadedFile) (e : exn) :
  falsy (Speechtxt.email req) = false ->
  falsy (Speechtxt.title req) = false ->
  Speechtxt.file req = Some f ->
  wav_decode E (Speechtxt.buffer f) = Throw e ->
  Speechtxt.post_speechtotext E req w
  = (Ok (mkResponse 500 (JFailure "Failed to create transcription")),
     set_console_log (fun l => l ++ [e]) w).
Proof.
  intros He Ht Hf Hd.
  rewrite post_speechtotext_buffer_cases. cbv zeta.
  rewrite He, Ht, Hf. cbn [orb Speechtxt.file_buffer].
  rewrite bool_decide_eq_false_2 by discriminate.
  unfold Speechtxt.convertToMonoBuffer. rewrite Hd. reflexivity.
Qed.

Lemma undecodable_upload_fails_witness :
  Speechtxt.post_speechtotext Fixture.healthy
    (Speechtxt.mkRequest (Some "ani@example.com") (Some "rapat")
       (Some (Speechtxt.mkFile [Byte.x00; Byte.xff] "audio/mp3")))
    Fixture.empty_world
  = (Ok (mkResponse 500 (JFailure "Failed to create transcription")),
     set_console_log (fun l => l ++ [Error "Invalid WAV file"]) Fixture.empty_world).
Proof.
  apply (undecodable_upload_fails Fixture.healthy _ Fixture.empty_world
           (Speechtxt.mkFile [Byte.x00; Byte.xff] "audio/mp3")); reflexivity.
Defined.

(** X21. When the stored upload is missing or the transcoder fails, the
    on-disk handler answers 500, and what it logs is the normaliser's one
    error, not the cause; nothing else changes. *)
Theorem failed_normalisation_is_logged (E : Externals) (req : Part000.Request) (w : World)
    (f : Part000.UploadedFile) :
  falsy (Part000.email req) = false ->
  falsy (Part000.title req) = false ->
  Part000.file req = Some f ->
  (disk w !! Part000.path f = None
   \/ exists data e,
        disk w !! Part000.path f = Some data
        /\ ffmpeg E "pcm_s16le" 16000 data = Throw e) ->
  Part000.post_speechtotext E req w
  = (Ok (mkResponse 500 (JFailure "Failed to create transcription")),
     set_console_log (fun l => l ++ [Error "Error saat konversi audio ke WAV."]) w).
Proof.
  intros He Ht Hf Hbad.
  rewrite post_speechtotext_files_cases. cbv zeta.
  rewrite He, Ht, Hf. cbn [orb Part000.the_file].
  rewrite bool_decide_eq_false_2 by discriminate.
  rewrite convertAudioToWav_cases. cbv zeta.
  destruct Hbad as [-> | (data & e & -> & ->)]; reflexivity.
Qed.

Lemma failed_normalisation_is_logged_witness :
  Part000.post_speechtotext Fixture.unknown_codec Fixture.stored_upload
    Fixture.world_with_upload
  = (Ok (mkResponse 500 (JFailure "Failed to create transcription")),
     set_console_log (fun l => l ++ [Error "Error saat konversi audio ke WAV."])
       Fixture.world_with_upload).
Proof.
  apply (failed_normalisation_is_logged Fixture.unknown_codec Fixture.stored_upload
           Fixture.world_with_upload (Part000.mkFile "uploads/3f9a" "3f9a" "audio/wav"));
    try reflexivity.
  right. exists Fixture.stereo_clip, (Error "Invalid data found when processing input").
  split; reflexivity.
Defined.

(** X22. The in-memory handler never runs the transcoder and never writes
    a file: two environments that agree on the codec, the speech service,
    the bucket and the database handle every upload alike, whatever their
    transcoders and disks do. *)
Theorem in_memory_handler_ignores_transcoder (E E' : Externals)
    (req : Speechtxt.Request) (w : World) :
  (forall b, wav_decode E b = wav_decode E' b) ->
  (forall a, wavEncoder_encode E a = wavEncoder_encode E' a) ->
  (forall b, toString_base64 E b = toString_base64 E' b) ->
  (forall r, recognize E r = recognize E' r) ->
  (forall n t, save_error E n t = save_error E' n t) ->
  (forall r, create_error E r = create_error E' r) ->
  GCP_BUCKET_NAME E = GCP_BUCKET_NAME E' ->
  Speechtxt.post_speechtotext E req w = Speechtxt.post_speechtotext E' req w.
Proof.
  intros Hdec Henc Hb64 Hrec Hsave Hcreate Hname.
  assert (Hmono : forall b,
             Speechtxt.convertToMonoBuffer E b = Speechtxt.convertToMonoBuffer E' b).
  { intros b. unfold Speechtxt.convertToMonoBuffer. rewrite Hdec.
    destruct (wav_decode E' b) as [decoded|e]; [|reflexivity]. simpl.
    destruct (channelData decoded) as [|ch0 [|ch1 more]]; try reflexivity.
    simpl. rewrite Henc. reflexivity. }
  assert (Htr : forall b w0,
             Speechtxt.transcribeAudioBuffer E b w0
             = Speechtxt.transcribeAudioBuffer E' b w0).
  { intros b w0. rewrite !transcribeAudioBuffer_cases, Hdec.
    destruct (wav_decode E' b) as [decoded|e]; [|reflexivity].
    cbv zeta. rewrite Hb64, Hrec. reflexivity. }
  assert (Hsv : forall t f w0,
             saveTranscriptionToCloud E t f w0 = saveTranscriptionToCloud E' t f w0).
  { intros t f w0. rewrite !saveTranscriptionToCloud_cases. cbv zeta.
    rewrite Hsave, Hname. reflexivity. }
  rewrite !post_speechtotext_buffer_cases. cbv zeta.
  destruct (falsy (Speechtxt.email req) || falsy (Speechtxt.title req)
            || bool_decide (Speechtxt.file req = None)); [reflexivity|].
  destruct (Speechtxt.file_buffer (Speechtxt.file req)) as [fileBuffer|e]; [|reflexivity].
  rewrite Hmono.
  destruct (Speechtxt.convertToMonoBuffer E' fileBuffer) as [monoBuffer|e]; [|reflexivity].
  rewrite Htr.
  destruct (Speechtxt.transcribeAudioBuffer E' monoBuffer w) as [[t|e] w1]; [|reflexivity].
  rewrite Hsv.
  destruct (saveTranscriptionToCloud E' t _ w1) as [[url|e] w2]; [|reflexivity].
  rewrite Hcreate. reflexivity.
Qed.

Lemma in_memory_handler_ignores_transcoder_witness :
  Speechtxt.post_speechtotext Fixture.healthy Fixture.upload Fixture.empty_world
  = Speechtxt.post_speechtotext
      (Fixture.env (Some (Error "ENOSPC: no space left on device"))
         (fun _ => Throw (Error "Invalid data found when processing input"))
         (Ok [["halo"]; ["dunia"]]) None None)
      Fixture.upload Fixture.empty_world.
Proof.
  apply in_memory_handler_ignores_transcoder; reflexivity.
Defined.

(** X23. When the transcript was saved and the insert then fails, the
    in-memory handler answers 500 and logs the database error; the table
    is as before, but the transcript stays in the bucket. *)
Theorem failed_insert_leaves_transcript (E : Externals) (req : Speechtxt.Request)
    (w w1 : World) (email title transcription : string) (f : Speechtxt.UploadedFile)
    (monoBuffer : Buffer) (e : exn) :
  Speechtxt.email req = Some email -> email <> EmptyString ->
  Speechtxt.title req = Some title -> title <> EmptyString ->
  Speechtxt.file req = Some f ->
  Speechtxt.convertToMonoBuffer E (Speechtxt.buffer f) = Ok monoBuffer ->
  Speechtxt.transcribeAudioBuffer E monoBuffer w = (Ok transcription, w1) ->
  save_error E ("transcriptions/" +:+ title +:+ ".txt") transcription = None ->
  create_error E
    (mkRow ("https://storage.googleapis.com/" +:+ GCP_BUCKET_NAME E
              +:+ "/transcriptions/" +:+ title +:+ ".txt")
       transcription title email) = Some e ->
  exists w',
    Speechtxt.post_speechtotext E req w
    = (Ok (mkResponse 500 (JFailure "Failed to create transcription")), w')
    /\ table w' = table w
    /\ bucket w' !! ("transcriptions/" +:+ title +:+ ".txt") = Some transcription
    /\ console_log w' = console_log w ++ [e].
Proof.
  intros He Hne Ht Hnt Hf Hmono Htr Hsave Hcreate.
  rewrite post_speechtotext_buffer_cases. cbv zeta.
  rewrite He, Ht, Hf. cbn [Speechtxt.file_buffer js_string falsy].
  destruct (decide (email = EmptyString)); [contradiction|].
  destruct (decide (title = EmptyString)); [contradiction|].
  cbn [orb]. rewrite bool_decide_eq_false_2 by discriminate.
  rewrite Hmono, Htr, saveTranscriptionToCloud_cases. cbv zeta.
  rewrite Hsave, Hcreate.
  eexists. split; [reflexivity|].
  rewrite transcribeAudioBuffer_cases in Htr.
  destruct (wav_decode E monoBuffer) as [decoded|e0]; [|discriminate].
  cbv zeta in Htr.
  destruct (recognize E _) as [results|e0]; [|discriminate].
  destruct (first_transcripts results) as [ts|e0]; [|discriminate].
  injection Htr as <- <-. cbn. repeat split. apply lookup_insert_eq.
Qed.

Lemma failed_insert_leaves_transcript_witness :
  exists w',
    Speechtxt.post_speechtotext Fixture.db_down Fixture.upload Fixture.empty_world
    = (Ok (mkResponse 500 (JFailure "Failed to create transcription")), w')
    /\ table w' = []
    /\ bucket w' !! "transcriptions/rapat.txt" = Some "halo".
Proof.
  destruct (failed_insert_leaves_transcript Fixture.db_down Fixture.upload
              Fixture.empty_world
              (set_recognize_log
                 (fun l => l ++ [mkRecognizeRequest "AQ==" "LINEAR16" 16000 "id-ID"])
                 Fixture.empty_world)
              "ani@example.com" "rapat" "halo"
              (Speechtxt.mkFile Fixture.stereo_clip "audio/wav") Fixture.silent_clip
              (Error "SequelizeConnectionError"))
    as (w' & Hrun & Htable & Hbucket & _);
    try reflexivity; try discriminate.
  exists w'. repeat split; assumption.
Defined.
